(** * WearAHat: a shallow embedding of [samples/wear-a-hat/src/app.ts]

    The application keeps three tables (the hat database, the preloaded
    prefabs and the hats attached to users) and talks to the MRE runtime
    (actor creation and destruction, asset loading, click behaviours).

    Modelling conventions.
    - A JavaScript object used as a table is a finite map ([gmap]) when
      only lookups matter, and an association list in [Object.keys] order
      when the code enumerates it.  The hat database is a plain object: its
      own properties are listed integer-like keys first, and a lookup of a
      name that is not an own key finds the members inherited from
      [Object.prototype].  The keys of [this.prefabs] and of
      [this.attachedHats] (hat identifiers that are own keys, and the user
      identifiers of the runtime) are assumed not to be such names.
    - [undefined] is [None]; a property read on [undefined] throws a
      [TypeError], as in JavaScript.
    - JavaScript numbers are exact rationals: a decimal literal denotes its
      exact value and [+], [*] are exact.  The offsets of the menu, the one
      place where the code iterates an addition, are also computed in IEEE
      binary64 ([entry_y_double]).
    - Methods of the class are computations in a state-and-exception monad
      over the [World] (the fields of [this], the hat database and the
      runtime's context).
    - The parts of the MRE SDK math library the code calls
      ([Quaternion.FromEulerAngles], [DegreesToRadians]) are parameters. *)

From Stdlib Require Import QArith Lqa PrimFloat.
From stdpp Require Import base option list gmap strings sorting.

Set Warnings "-inexact-float".

Set Default Proof Using "Type".

(** ** Values *)

Definition number := Q.
Bind Scope Q_scope with number.
Definition Guid := string.
Definition ActorId := nat.
Definition AssetId := nat.

Record Vector3 := { v_x : number; v_y : number; v_z : number }.

(** The structure of a hat entry in the hat database.  [resourceName] is
    [None] when the JSON entry has no such field. *)
Record HatDescriptor := {
  displayName : string;
  resourceName : option string;
  scale : Vector3;
  rotation : Vector3;
  position : Vector3;
}.

(** JavaScript truthiness of an optional string: [undefined] and the empty
    string are falsy. *)
Definition truthy (s : option string) : bool :=
  match s with
  | Some s => negb (String.eqb s "")
  | None => false
  end.

(** ** The hat database as a JavaScript object *)

(** The value of a decimal digit. *)
Definition digit (c : Ascii.ascii) : option N :=
  let n := Ascii.N_of_ascii c in
  if ((48 <=? n) && (n <=? 57))%N then Some (n - 48)%N else None.

Fixpoint digits_value (acc : N) (s : string) : option N :=
  match s with
  | String.EmptyString => Some acc
  | String.String c s =>
      match digit c with
      | Some d => digits_value (acc * 10 + d)%N s
      | None => None
      end
  end.

(** A property key is an array index when it is the canonical decimal
    numeral of an integer from 0 to 2^32 - 2: such keys are the
    "integer-like" keys that a JavaScript object lists first. *)
Definition array_index (key : string) : option N :=
  match key with
  | String.EmptyString => None
  | String.String c rest =>
      if (Ascii.N_of_ascii c =? 48)%N then
        match rest with
        | String.EmptyString => Some 0%N
        | _ => None
        end
      else
        match digits_value 0 key with
        | Some n => if (n <? 2 ^ 32 - 1)%N then Some n else None
        | None => None
        end
  end.

(** [CreateDataProperty(obj, key, value)]: a new key is added last, a key
    that exists keeps its place and takes the new value. *)
Fixpoint define_property (key : string) (d : HatDescriptor)
    (obj : list (string * HatDescriptor)) : list (string * HatDescriptor) :=
  match obj with
  | [] => [(key, d)]
  | (k, d') :: obj =>
      if String.eqb k key then (k, d) :: obj
      else (k, d') :: define_property key d obj
  end.

(** The properties that parsing a JSON object creates, in creation order,
    from its members in the order of the document. *)
Definition created_properties (declared : list (string * HatDescriptor))
    : list (string * HatDescriptor) :=
  fold_left (λ obj kv, define_property kv.1 kv.2 obj) declared [].

Definition index_le (kv1 kv2 : string * HatDescriptor) : Prop :=
  (default 0 (array_index kv1.1) ≤ default 0 (array_index kv2.1))%N.

#[global] Instance index_le_dec kv1 kv2 : Decision (index_le kv1 kv2).
Proof. unfold index_le. apply _. Defined.

#[global] Instance index_le_total : Total index_le.
Proof. intros kv1 kv2. unfold index_le. lia. Qed.

#[global] Instance index_le_trans : Transitive index_le.
Proof. intros kv1 kv2 kv3. unfold index_le. lia. Qed.

(** [require('../public/hats.json')]: the own properties of the object, in
    the order in which [Object.keys] and [for ... in] list them: the array
    indices in ascending numeric order, then the other keys in creation
    order. *)
Definition own_properties (declared : list (string * HatDescriptor))
    : list (string * HatDescriptor) :=
  let created := created_properties declared in
  merge_sort index_le (filter (λ kv, is_Some (array_index kv.1)) created) ++
  filter (λ kv, ¬ is_Some (array_index kv.1)) created.

(** The names of the properties that a plain object inherits from
    [Object.prototype]. *)
Definition Object_prototype_names : list string :=
  [ "constructor"; "__defineGetter__"; "__defineSetter__"; "hasOwnProperty";
    "__lookupGetter__"; "__lookupSetter__"; "isPrototypeOf";
    "propertyIsEnumerable"; "toString"; "valueOf"; "__proto__";
    "toLocaleString" ].

(** What [HatDatabase[hatId]] evaluates to: the descriptor of an own key, a
    member inherited from [Object.prototype] (a function, or the prototype
    itself for [__proto__]; reading [resourceName] on it gives [undefined]),
    or [undefined]. *)
Inductive Looked :=
  | OwnProperty (d : HatDescriptor)
  | InheritedMember
  | Undefined.

(** ** The vertical offsets of the menu in IEEE binary64

    The loop variable [y] of [showHatMenu] as JavaScript computes it:
    [0.3] and [0.5] are the doubles nearest to the literals and [+] rounds. *)
Definition entry_y_double (i : nat) : float :=
  Nat.iter i (λ y, y + 0.5)%float 0.3%float.

(** The [n] offsets that the loop produces from the offset [y] are all
    below [t]. *)
Fixpoint all_below (t : float) (n : nat) (y : float) : bool :=
  match n with
  | O => true
  | S n => PrimFloat.ltb y t && all_below t n (y + 0.5)
  end.

(** For each of the [fuel] rounds from round [j], where the loop variable is
    [yj]: every earlier offset is below [yj], and below [yj + 0.25], where
    the title goes if the loop ends there. *)
Fixpoint offsets_below (fuel j : nat) (yj : float) : bool :=
  match fuel with
  | O => true
  | S fuel =>
      all_below yj j 0.3 && all_below (yj + 0.25) j 0.3 &&
      offsets_below fuel (S j) (yj + 0.5)
  end.

(** The part of the SDK's math library that the code calls. *)
Class MREMath := {
  Quaternion : Type;
  FromEulerAngles : number → number → number → Quaternion;
  DegreesToRadians : number;
}.

(** Assets, as far as the code reads them: the identifier, the [prefab]
    getter ([null] for an asset that is not a prefab; what a prefab holds is
    not read) and, for a mesh made by the container, its box. *)
Inductive Prefab := PrefabDefinition.

Record Asset := {
  asset_id : AssetId;
  asset_name : string;
  prefab : option Prefab;
  asset_box : option (number * number * number);
}.

Inductive ColliderType := ColliderAuto.
Inductive TextAnchorLocation := MiddleLeft | MiddleCenter.
Inductive Color3 := Yellow.

Record TextLike := {
  contents : string;
  height : number;
  anchor : TextAnchorLocation;
  color : option Color3;
}.

Record AttachmentLike := { attachPoint : string; userId : Guid }.

Record User := { user_id : Guid }.

Inductive JSError := TypeError (what : string).

Inductive Completion (A : Type) :=
  | Normal (a : A)
  | Throw (e : JSError).
Arguments Normal {A} a.
Arguments Throw {A} e.

(** An asset load settles with the loaded assets or with an error value. *)
Inductive LoadOutcome :=
  | Loaded (assets : list Asset)
  | Failed (e : string).

Inductive PromiseState :=
  | Pending
  | Fulfilled
  | Rejected (e : string).

(** One element of the array built by [preloadHats]: the promise made for
    [load_hatId].  [load_url] is the resource asked of [loadGltf], or [None]
    for [Promise.resolve()]; [load_state] is the state of the whole chain
    [loadGltf(url).then(...).catch(...)]. *)
Record Load := {
  load_hatId : string;
  load_url : option string;
  load_state : PromiseState;
}.

(** Where the asynchronous method [started] stands: before the call, suspended
    at its [await], past it (the menu is built), or rejected. *)
Inductive Startup :=
  | NotStarted
  | AwaitingPreload
  | MenuShown
  | StartupRejected (e : string).

Section Model.
Context `{MREMath}.

Record TransformLike := {
  t_position : option Vector3;
  t_rotation : option Quaternion;
  t_scale : option Vector3;
}.

(** The [actor] argument of [Actor.Create] and [Actor.CreateFromPrefab]. *)
Record ActorLike := {
  parentId : option ActorId;
  name : option string;
  appearance_meshId : option AssetId;
  collider : option ColliderType;
  text : option TextLike;
  transform_local : TransformLike;
  attachment : option AttachmentLike;
}.

Definition no_transform : TransformLike :=
  {| t_position := None; t_rotation := None; t_scale := None |}.

(** [{}]: an actor description with nothing set. *)
Definition empty_actor : ActorLike :=
  {| parentId := None; name := None; appearance_meshId := None;
     collider := None; text := None; transform_local := no_transform;
     attachment := None |}.

(** A live actor of the context. *)
Record Actor := {
  actor_id : ActorId;
  actor_prefabId : option AssetId;
  actor_like : ActorLike;
}.

(** ** The world: the fields of [this], the module-level hat database and
    the runtime's context. *)
Record World := {
  (** [const HatDatabase = require('../public/hats.json')], own properties
      in [Object.keys] order. *)
  HatDatabase : list (string * HatDescriptor);
  (** [this.baseUrl]. *)
  baseUrl : string;
  (** [this.prefabs]; [Some None] is an own property holding [undefined]. *)
  prefabs : gmap string (option Asset);
  (** [this.attachedHats]. *)
  attachedHats : gmap string ActorId;
  (** The context's live actors, in creation order, and its next handle. *)
  actors : list Actor;
  next_actor : ActorId;
  (** [this.assets]: the assets created through the container. *)
  assets : list Asset;
  next_asset : AssetId;
  (** Click handlers registered on buttons: the closure
      [user => this.wearHat(hatId, user.id)] is represented by its [hatId]. *)
  onClick : gmap ActorId string;
  (** The array of promises handed to [Promise.all] by [preloadHats]. *)
  loads : list Load;
  (** Where the asynchronous [started] stands. *)
  startup : Startup;
  (** What was passed to [log.error]. *)
  errors_logged : list (string * string);
}.

Definition set_prefabs (f : gmap string (option Asset) → gmap string (option Asset))
    (w : World) : World :=
  {| HatDatabase := HatDatabase w; baseUrl := baseUrl w;
     prefabs := f (prefabs w);
     attachedHats := attachedHats w; actors := actors w;
     next_actor := next_actor w; assets := assets w;
     next_asset := next_asset w; onClick := onClick w; loads := loads w;
     startup := startup w; errors_logged := errors_logged w |}.

Definition set_attachedHats (f : gmap string ActorId → gmap string ActorId)
    (w : World) : World :=
  {| HatDatabase := HatDatabase w; baseUrl := baseUrl w;
     prefabs := prefabs w;
     attachedHats := f (attachedHats w); actors := actors w;
     next_actor := next_actor w; assets := assets w;
     next_asset := next_asset w; onClick := onClick w; loads := loads w;
     startup := startup w; errors_logged := errors_logged w |}.

Definition set_actors (f : list Actor → list Actor) (w : World) : World :=
  {| HatDatabase := HatDatabase w; baseUrl := baseUrl w;
     prefabs := prefabs w;
     attachedHats := attachedHats w; actors := f (actors w);
     next_actor := next_actor w; assets := assets w;
     next_asset := next_asset w; onClick := onClick w; loads := loads w;
     startup := startup w; errors_logged := errors_logged w |}.

Definition set_next_actor (n : ActorId) (w : World) : World :=
  {| HatDatabase := HatDatabase w; baseUrl := baseUrl w;
     prefabs := prefabs w;
     attachedHats := attachedHats w; actors := actors w;
     next_actor := n; assets := assets w;
     next_asset := next_asset w; onClick := onClick w; loads := loads w;
     startup := startup w; errors_logged := errors_logged w |}.

Definition set_assets (f : list Asset → list Asset) (n : AssetId)
    (w : World) : World :=
  {| HatDatabase := HatDatabase w; baseUrl := baseUrl w;
     prefabs := prefabs w;
     attachedHats := attachedHats w; actors := actors w;
     next_actor := next_actor w; assets := f (assets w);
     next_asset := n; onClick := onClick w; loads := loads w;
     startup := startup w; errors_logged := errors_logged w |}.

Definition set_onClick (f : gmap ActorId string → gmap ActorId string)
    (w : World) : World :=
  {| HatDatabase := HatDatabase w; baseUrl := baseUrl w;
     prefabs := prefabs w;
     attachedHats := attachedHats w; actors := actors w;
     next_actor := next_actor w; assets := assets w;
     next_asset := next_asset w; onClick := f (onClick w); loads := loads w;
     startup := startup w; errors_logged := errors_logged w |}.

Definition set_loads (f : list Load → list Load)
    (w : World) : World :=
  {| HatDatabase := HatDatabase w; baseUrl := baseUrl w;
     prefabs := prefabs w;
     attachedHats := attachedHats w; actors := actors w;
     next_actor := next_actor w; assets := assets w;
     next_asset := next_asset w; onClick := onClick w; loads := f (loads w);
     startup := startup w; errors_logged := errors_logged w |}.

Definition set_startup (s : Startup) (w : World) : World :=
  {| HatDatabase := HatDatabase w; baseUrl := baseUrl w;
     prefabs := prefabs w;
     attachedHats := attachedHats w; actors := actors w;
     next_actor := next_actor w; assets := assets w;
     next_asset := next_asset w; onClick := onClick w; loads := loads w;
     startup := s; errors_logged := errors_logged w |}.

Definition set_errors_logged (f : list (string * string) → list (string * string))
    (w : World) : World :=
  {| HatDatabase := HatDatabase w; baseUrl := baseUrl w;
     prefabs := prefabs w;
     attachedHats := attachedHats w; actors := actors w;
     next_actor := next_actor w; assets := assets w;
     next_asset := next_asset w; onClick := onClick w; loads := loads w;
     startup := startup w; errors_logged := f (errors_logged w) |}.

(** ** The monad of methods: world passing with JavaScript exceptions.
    A thrown exception keeps the mutations made before it. *)
Definition M (A : Type) : Type := World → Completion A * World.

#[global] Instance M_ret : MRet M := λ A a w, (Normal a, w).

#[global] Instance M_bind : MBind M := λ A B k m w,
  match m w with
  | (Normal a, w') => k a w'
  | (Throw e, w') => (Throw e, w')
  end.

Definition gets {A} (f : World → A) : M A := λ w, (Normal (f w), w).
Definition modify (f : World → World) : M unit := λ w, (Normal tt, f w).
Definition throw {A} (e : JSError) : M A := λ w, (Throw e, w).

(** Reading a property of [v]: a [TypeError] when [v] is [undefined]. *)
Definition defined {A} (what : string) (v : option A) : M A :=
  match v with
  | Some a => mret a
  | None => throw (TypeError what)
  end.

(** [obj[key]] on the own properties of the hat database: this is the
    value of [HatDatabase[key]] whenever [key] is one of its keys. *)
Definition db_lookup (key : string) (db : list (string * HatDescriptor))
    : option HatDescriptor :=
  snd <$> List.find (λ kv, String.eqb (fst kv) key) db.

(** [HatDatabase[hatId]] for any [hatId]: an own property first, then the
    prototype. *)
Definition HatDatabase_get (hatId : string) (db : list (string * HatDescriptor))
    : Looked :=
  match db_lookup hatId db with
  | Some d => OwnProperty d
  | None =>
      if bool_decide (hatId ∈ Object_prototype_names) then InheritedMember
      else Undefined
  end.

(** [Object.keys(obj)]. *)
Definition Object_keys (db : list (string * HatDescriptor)) : list string :=
  fst <$> db.

(** ** The runtime's primitives *)

(** [actor.destroy()]: the actor leaves the context. *)
Definition destroy (a : ActorId) : M unit :=
  modify (set_actors (filter (λ b, actor_id b ≠ a))).

Definition create (prefabId : option AssetId) (like : ActorLike) : M ActorId :=
  λ w,
    let a := next_actor w in
    (Normal a,
     set_next_actor (S a)
       (set_actors (λ l, l ++ [{| actor_id := a; actor_prefabId := prefabId;
                                  actor_like := like |}]) w)).

(** [MRE.Actor.Create(context, { actor })]. *)
Definition Actor_Create (like : ActorLike) : M ActorId := create None like.

(** [MRE.Actor.CreateFromPrefab(context, { prefabId, actor })]. *)
Definition Actor_CreateFromPrefab (prefabId : AssetId) (like : ActorLike)
    : M ActorId :=
  create (Some prefabId) like.

(** [this.assets.createBoxMesh(name, width, height, depth)]. *)
Definition createBoxMesh (nm : string) (width height depth : number) : M Asset :=
  λ w,
    let m := {| asset_id := next_asset w; asset_name := nm; prefab := None;
                asset_box := Some (width, height, depth) |} in
    (Normal m, set_assets (λ l, l ++ [m]) (S (next_asset w)) w).

(** [button.setBehavior(MRE.ButtonBehavior).onClick(user => this.wearHat(hatId, user.id))]. *)
Definition setBehavior_onClick (button : ActorId) (hatId : string) : M unit :=
  modify (set_onClick <[button := hatId]>).

(** [log.error(facility, e)]. *)
Definition log_error (facility e : string) : M unit :=
  modify (set_errors_logged (λ l, l ++ [(facility, e)])).

(** ** [WearAHat.userLeft] *)
Definition userLeft (user : User) : M unit :=
  (* If the user was wearing a hat, destroy it. *)
  hat ← gets (λ w, attachedHats w !! user_id user);
  match hat with
  | Some a => destroy a
  | None => mret tt
  end;;
  modify (set_attachedHats (delete (user_id user))).

(** ** [WearAHat.wearHat] *)
Definition wearHat (hatId : string) (userId : Guid) : M unit :=
  (* If the user is wearing a hat, destroy it. *)
  hat ← gets (λ w, attachedHats w !! userId);
  match hat with
  | Some a => destroy a
  | None => mret tt
  end;;
  modify (set_attachedHats (delete userId));;
  hatRecord ← gets (λ w, HatDatabase_get hatId (HatDatabase w));
  (* [hatRecord.resourceName] *)
  match hatRecord with
  | Undefined => throw (TypeError "resourceName")
  | InheritedMember =>
      (* [resourceName] is [undefined]: early out. *)
      mret tt
  | OwnProperty d =>
      (* If the user selected 'none', then early out. *)
      if negb (truthy (resourceName d)) then mret tt
      else
        (* [this.prefabs[hatId].id] *)
        p ← gets (λ w, prefabs w !! hatId);
        pf ← defined "id" (mjoin p);
        a ← Actor_CreateFromPrefab (asset_id pf)
              {| parentId := None; name := None; appearance_meshId := None;
                 collider := None; text := None;
                 transform_local :=
                   {| t_position := Some (position d);
                      t_rotation := Some (FromEulerAngles
                        (v_x (rotation d) * DegreesToRadians)%Q
                        (v_y (rotation d) * DegreesToRadians)%Q
                        (v_z (rotation d) * DegreesToRadians)%Q);
                      t_scale := Some (scale d) |};
                 attachment :=
                   Some {| attachPoint := "head"; userId := userId |} |};
        modify (set_attachedHats <[userId := a]>)
  end.


(** ** [WearAHat.showHatMenu] *)

Definition at_position (px py pz : number) : TransformLike :=
  {| t_position := Some {| v_x := px; v_y := py; v_z := pz |};
     t_rotation := None; t_scale := None |}.

(** The description of a menu button. *)
Definition button_like (menu : ActorId) (buttonMesh : Asset) (hatId : string)
    (y : number) : ActorLike :=
  {| parentId := Some menu; name := Some hatId;
     appearance_meshId := Some (asset_id buttonMesh);
     collider := Some ColliderAuto; text := None;
     transform_local := at_position 0 y 0; attachment := None |}.

(** The description of the label of a menu entry. *)
Definition label_like (menu : ActorId) (shown : string) (y : number) : ActorLike :=
  {| parentId := Some menu; name := Some "label"; appearance_meshId := None;
     collider := None;
     text := Some {| contents := shown; height := 0.5; anchor := MiddleLeft;
                     color := None |};
     transform_local := at_position 0.5 y 0; attachment := None |}.

Fixpoint replicate_string (k : nat) (s : string) : string :=
  match k with
  | O => ""
  | S k => s +:+ replicate_string k s
  end.

(** [s.padStart(targetLength, padString)]. *)
Definition padStart (s : string) (targetLength : nat) (padString : string)
    : string :=
  let k := targetLength - String.length s in
  String.substring 0 k (replicate_string k padString) +:+ s.

(** The description of the menu title. *)
Definition title_like (menu : ActorId) (y : number) : ActorLike :=
  {| parentId := Some menu; name := Some "label"; appearance_meshId := None;
     collider := None;
     text := Some {| contents := padStart "" 8 " " +:+ "Wear a Hat";
                     height := 0.8; anchor := MiddleCenter;
                     color := Some Yellow |};
     transform_local := at_position 0.5 (y + 0.25) 0; attachment := None |}.

(** The body of the loop over [Object.keys(HatDatabase)]; [y] is the loop's
    mutable variable and the final [y] is returned. *)
Fixpoint menu_items (menu : ActorId) (buttonMesh : Asset) (keys : list string)
    (y : number) : M number :=
  match keys with
  | [] => mret y
  | hatId :: keys =>
      (* Create a clickable button. *)
      button ← Actor_Create (button_like menu buttonMesh hatId y);
      (* Set a click handler on the button. *)
      setBehavior_onClick button hatId;;
      (* Create a label for the menu entry. *)
      hatRecord ← gets (λ w, db_lookup hatId (HatDatabase w));
      d ← defined "displayName" hatRecord;
      Actor_Create (label_like menu (displayName d) y);;
      menu_items menu buttonMesh keys (y + 0.5)
  end.

Definition showHatMenu : M unit :=
  (* Create a parent object for all the menu items. *)
  menu ← Actor_Create empty_actor;
  (* Create menu button *)
  buttonMesh ← createBoxMesh "button" 0.3 0.3 0.01;
  (* Loop over the hat database, creating a menu item for each entry. *)
  keys ← gets (λ w, Object_keys (HatDatabase w));
  y ← menu_items menu buttonMesh keys 0.3;
  (* Create a label for the menu title. *)
  Actor_Create (title_like menu y);;
  mret tt.

(** ** [WearAHat.preloadHats] *)

(** A template-literal substitution of an optional string. *)
Definition template (s : option string) : string :=
  match s with
  | Some s => s
  | None => "undefined"
  end.

(** [a => a.prefab !== null]. *)
Definition prefab_not_null (a : Asset) : bool :=
  match prefab a with
  | Some _ => true
  | None => false
  end.

(** The callback of [Object.keys(HatDatabase).map]: the promise made for one
    hat.  A load request leaves the chain pending until the runtime settles
    it; [Promise.resolve()] is fulfilled at once. *)
Definition preload_one (hatId : string) : M Load :=
  hatRecord ← gets (λ w, db_lookup hatId (HatDatabase w));
  d ← defined "resourceName" hatRecord;
  if truthy (resourceName d) then
    base ← gets baseUrl;
    mret {| load_hatId := hatId;
            load_url := Some (base +:+ "/" +:+ template (resourceName d));
            load_state := Pending |}
  else
    mret {| load_hatId := hatId; load_url := None; load_state := Fulfilled |}.

(** The synchronous part of [preloadHats]: the array given to [Promise.all]. *)
Definition preloadHats : M unit :=
  keys ← gets (λ w, Object_keys (HatDatabase w));
  ps ← mapM preload_one keys;
  modify (set_loads (λ _, ps)).

(** [.then(assets => { this.prefabs[hatId] = assets.find(a => a.prefab !== null) })]:
    runs the callback on fulfilment; a rejection passes through. *)
Definition then_store (hatId : string) (o : LoadOutcome) : M PromiseState :=
  match o with
  | Loaded assets =>
      modify (set_prefabs <[hatId := List.find prefab_not_null assets]>);;
      mret Fulfilled
  | Failed e => mret (Rejected e)
  end.

(** [.catch(e => log.error("app", e))]: a rejection is handled, and the
    resulting promise is fulfilled. *)
Definition catch_log (s : PromiseState) : M PromiseState :=
  match s with
  | Rejected e => log_error "app" e;; mret Fulfilled
  | s => mret s
  end.

(** [Promise.all]: rejected as soon as an element is rejected, fulfilled when
    every element is fulfilled, pending otherwise. *)
Fixpoint Promise_all (ps : list PromiseState) : PromiseState :=
  match ps with
  | [] => Fulfilled
  | Rejected e :: _ => Rejected e
  | Fulfilled :: ps => Promise_all ps
  | Pending :: ps =>
      match Promise_all ps with
      | Rejected e => Rejected e
      | _ => Pending
      end
  end.

(** ** [WearAHat.started]

    [await this.preloadHats(); this.showHatMenu()]: the rest of the method
    runs once the awaited promise is fulfilled; if it is rejected the method
    ends without running it. *)
Definition resume_started : M unit :=
  st ← gets startup;
  match st with
  | AwaitingPreload =>
      ps ← gets (λ w, load_state <$> loads w);
      match Promise_all ps with
      | Fulfilled => showHatMenu;; modify (set_startup MenuShown)
      | Rejected e => modify (set_startup (StartupRejected e))
      | Pending => mret tt
      end
  | _ => mret tt
  end.

Definition started : M unit :=
  (* Preload all the hat models. *)
  preloadHats;;
  modify (set_startup AwaitingPreload);;
  (* Show the hat menu. *)
  resume_started.

(** ** The runtime's events *)

Definition is_pending (hatId : string) (l : Load) : bool :=
  String.eqb (load_hatId l) hatId &&
  match load_state l with
  | Pending => true
  | _ => false
  end.

Definition set_state (hatId : string) (s : PromiseState) (l : Load) : Load :=
  if is_pending hatId l
  then {| load_hatId := load_hatId l; load_url := load_url l; load_state := s |}
  else l.

(** The runtime settles the load requested for [hatId]: the [then] and
    [catch] callbacks run, the chain takes its final state, and [started]
    resumes if that completes the awaited promise.  A load that was not
    requested, or that has settled already, cannot settle. *)
Definition settle (hatId : string) (o : LoadOutcome) : M unit :=
  ls ← gets loads;
  if existsb (is_pending hatId) ls then
    s ← then_store hatId o;
    s' ← catch_log s;
    modify (set_loads (fmap (set_state hatId s')));;
    resume_started
  else mret tt.

Inductive Event :=
  | SessionStarted
  | LoadSettled (hatId : string) (o : LoadOutcome)
  | Clicked (button : ActorId) (user : User)
  | UserLeft (user : User).

(** The handler the application registered for an event.  A click reaches
    the handler of the button clicked, if it has one. *)
Definition handler (e : Event) : M unit :=
  match e with
  | SessionStarted => started
  | LoadSettled hatId o => settle hatId o
  | Clicked button user =>
      h ← gets (λ w, onClick w !! button);
      match h with
      | Some hatId => wearHat hatId (user_id user)
      | None => mret tt
      end
  | UserLeft user => userLeft user
  end.

(** The runtime dispatches one event at a time; an exception thrown by a
    handler ends that handler only. *)
Definition dispatch (w : World) (e : Event) : World := (handler e w).2.

Definition run (es : list Event) (w : World) : World := foldl dispatch w es.

(** [new WearAHat(context, baseUrl)] with the hat database [db]. *)
Definition constructed (db : list (string * HatDescriptor)) (url : string)
    : World :=
  {| HatDatabase := db; baseUrl := url; prefabs := ∅; attachedHats := ∅;
     actors := []; next_actor := 0; assets := []; next_asset := 0;
     onClick := ∅; loads := []; startup := NotStarted; errors_logged := [] |}.

End Model.

(** ** Observations on worlds *)

Section Observations.
Context `{MREMath}.

(** The actor [a] is in the context (it was created and not destroyed). *)
Definition live (a : ActorId) (w : World) : Prop :=
  a ∈ actor_id <$> actors w.

(** The actor is attached to the user [u]. *)
Definition attached_to (u : Guid) (a : Actor) : bool :=
  match attachment (actor_like a) with
  | Some att => String.eqb (userId att) u
  | None => false
  end.

(** The live actors attached to [u], in creation order. *)
Definition hats_of (u : Guid) (w : World) : list ActorId :=
  actor_id <$> List.filter (attached_to u) (actors w).

(** The world after the first two lines of [wearHat] and of [userLeft]:
    the hat recorded for [u], if any, is destroyed and its entry deleted. *)
Definition taken_off (u : Guid) (w : World) : World :=
  set_attachedHats (delete u)
    match attachedHats w !! u with
    | Some a => set_actors (filter (λ b, actor_id b ≠ a)) w
    | None => w
    end.

(** The actor that [wearHat] creates for the descriptor [d], the prefab [pf]
    and the user [u]. *)
Definition hat_actor (a : ActorId) (d : HatDescriptor) (pf : Asset) (u : Guid)
    : Actor :=
  {| actor_id := a;
     actor_prefabId := Some (asset_id pf);
     actor_like :=
       {| parentId := None; name := None; appearance_meshId := None;
          collider := None; text := None;
          transform_local :=
            {| t_position := Some (position d);
               t_rotation := Some (FromEulerAngles
                 (v_x (rotation d) * DegreesToRadians)
                 (v_y (rotation d) * DegreesToRadians)
                 (v_z (rotation d) * DegreesToRadians));
               t_scale := Some (scale d) |};
          attachment := Some {| attachPoint := "head"; userId := u |} |} |}.

(** The vertical offset of the [i]-th menu entry: the value of the loop
    variable [y] after [i] rounds of [y = y + 0.5] from [0.3]. *)
Definition entry_y (i : nat) : number := Nat.iter i (λ y, y + 0.5)%Q 0.3%Q.

(** The actors that the loop of [showHatMenu] creates for [entries], the
    first of them with handle [a] and offset [y]: for each entry a button,
    then a label. *)
Fixpoint menu_entries (menu : ActorId) (buttonMesh : Asset)
    (entries : list (string * HatDescriptor)) (a : ActorId) (y : number)
    : list Actor :=
  match entries with
  | [] => []
  | (hatId, d) :: entries =>
      {| actor_id := a; actor_prefabId := None;
         actor_like := button_like menu buttonMesh hatId y |} ::
      {| actor_id := S a; actor_prefabId := None;
         actor_like := label_like menu (displayName d) y |} ::
      menu_entries menu buttonMesh entries (S (S a)) (y + 0.5)
  end.

(** The click handlers that the loop registers: one per button. *)
Fixpoint menu_clicks (keys : list string) (a : ActorId)
    (m : gmap ActorId string) : gmap ActorId string :=
  match keys with
  | [] => m
  | hatId :: keys => menu_clicks keys (S (S a)) (<[a := hatId]> m)
  end.

(** The entries that [Object.keys(db)] and [db[key]] enumerate: each key
    with the descriptor that the lookup of the key yields.  For keys without
    duplicates, as in a JavaScript object, this is [db] itself. *)
Definition enumerated (db : list (string * HatDescriptor))
    : list (string * HatDescriptor) :=
  (λ kv, (kv.1, default kv.2 (db_lookup kv.1 db))) <$> db.

(** The mesh that [showHatMenu] creates for the buttons. *)
Definition button_mesh (w : World) : Asset :=
  {| asset_id := next_asset w; asset_name := "button"; prefab := None;
     asset_box := Some (0.3, 0.3, 0.01)%Q |}.

(** The actors that [showHatMenu] creates, in creation order: the container,
    a button and a label per entry, the title. *)
Definition menu_actors (w : World) : list Actor :=
  let menu := next_actor w in
  let entries := enumerated (HatDatabase w) in
  {| actor_id := menu; actor_prefabId := None; actor_like := empty_actor |} ::
  menu_entries menu (button_mesh w) entries (S menu) 0.3 ++
  [ {| actor_id := S menu + 2 * length entries; actor_prefabId := None;
       actor_like := title_like menu (entry_y (length entries)) |} ].

(** The world that [showHatMenu] leaves. *)
Definition menu_world (w : World) : World :=
  set_next_actor (next_actor w + 2 * length (HatDatabase w) + 2)
    (set_actors (λ l, l ++ menu_actors w)
       (set_onClick (menu_clicks (Object_keys (HatDatabase w)) (S (next_actor w)))
          (set_assets (λ l, l ++ [button_mesh w]) (S (next_asset w)) w))).

(** The promise that [preloadHats] makes for the entry [(hatId, d)]. *)
Definition load_of (base : string) (kv : string * HatDescriptor) : Load :=
  if truthy (resourceName kv.2)
  then {| load_hatId := kv.1;
          load_url := Some (base +:+ "/" +:+ template (resourceName kv.2));
          load_state := Pending |}
  else {| load_hatId := kv.1; load_url := None; load_state := Fulfilled |}.

Definition fulfilled (l : Load) : Prop := load_state l = Fulfilled.

Definition not_rejected (l : Load) : Prop :=
  match load_state l with
  | Rejected _ => False
  | _ => True
  end.

(** The world after the callbacks of the chain of [hatId] have run on the
    outcome [o], before [started] resumes. *)
Definition settled_world (hatId : string) (o : LoadOutcome) (w : World) : World :=
  set_loads (fmap (set_state hatId Fulfilled))
    match o with
    | Loaded assets =>
        set_prefabs <[hatId := List.find prefab_not_null assets]> w
    | Failed e => set_errors_logged (λ l, l ++ [("app", e)]) w
    end.

(** The world that [resume_started] leaves. *)
Definition resumed (w : World) : World :=
  match startup w with
  | AwaitingPreload =>
      match Promise_all (load_state <$> loads w) with
      | Fulfilled => set_startup MenuShown (menu_world w)
      | Rejected e => set_startup (StartupRejected e) w
      | Pending => w
      end
  | _ => w
  end.


(** A call of one of the two methods that change a user's hat. *)
Inductive Call :=
  | CallWearHat (hatId : string)
  | CallUserLeft.

Definition call (u : Guid) (c : Call) : M unit :=
  match c with
  | CallWearHat hatId => wearHat hatId u
  | CallUserLeft => userLeft {| user_id := u |}
  end.

(** A sequence of calls for the user [u]; a call that throws keeps what it
    did before throwing, and the next call runs. *)
Definition run_calls (u : Guid) (cs : list Call) (w : World) : World :=
  foldl (λ w c, (call u c w).2) w cs.

(** The live actors attached to [u] are exactly the entry of [u] in
    [attachedHats]: none without an entry, one with an entry. *)
Definition one_hat (u : Guid) (w : World) : Prop :=
  hats_of u w = option_list (attachedHats w !! u).

(** Every handle in use is below the next handle of the context. *)
Definition fresh_ids (w : World) : Prop :=
  Forall (λ a, actor_id a < next_actor w) (actors w).

(** What holds of the context and of [attachedHats] at every point: for each
    user the live actors attached to the user are exactly the user's entry,
    handles in use are below the next handle, and no handle is used twice. *)
Definition hat_inv (w : World) : Prop :=
  (∀ u, one_hat u w) ∧ fresh_ids w ∧ NoDup (actor_id <$> actors w).

(** The actor [a] was created and has been destroyed. *)
Definition destroyed (a : ActorId) (w : World) : Prop :=
  a < next_actor w ∧ ¬ live a w.

(** The settlements of a session in which every load succeeds and yields at
    least one prefab. *)
Definition good_event (e : Event) : Prop :=
  match e with
  | LoadSettled _ (Loaded assets) => List.find prefab_not_null assets ≠ None
  | LoadSettled _ (Failed _) => False
  | _ => True
  end.

(** The hat [hatId] names a resource in the database [db]. *)
Definition names_resource (db : list (string * HatDescriptor)) (hatId : string)
    : Prop :=
  ∃ d, db_lookup hatId db = Some d ∧ truthy (resourceName d) = true.

(** The promise made for [hatId] is still pending. *)
Definition load_pending (hatId : string) (w : World) : Prop :=
  ∃ l, l ∈ loads w ∧ load_hatId l = hatId ∧ load_state l = Pending.

(** What holds of a session in which every load so far succeeded with a
    prefab: a hat that names a resource has its prefab as soon as its promise
    has settled, hence as soon as its button exists. *)
Definition prefabs_ready (db : list (string * HatDescriptor)) (w : World)
    : Prop :=
  HatDatabase w = db ∧
  (∀ b h, onClick w !! b = Some h →
     h ∈ Object_keys db ∧
     (names_resource db h → ∃ pf, prefabs w !! h = Some (Some pf))) ∧
  (∀ l, l ∈ loads w → load_state l ≠ Pending →
     names_resource db (load_hatId l) →
     ∃ pf, prefabs w !! load_hatId l = Some (Some pf)) ∧
  (startup w = AwaitingPreload → load_hatId <$> loads w = Object_keys db).

(** The actor is not attached to any user. *)
Definition unattached (b : Actor) : bool :=
  match attachment (actor_like b) with
  | None => true
  | Some _ => false
  end.

(** Where the menu stands in a session of the database [db]: while [started]
    waits nothing exists yet; once the menu is shown, the actors of the
    context that are not hats are the actors of the menu, as built from the
    constructed application. *)
Definition menu_state (db : list (string * HatDescriptor)) (url : string)
    (w : World) : Prop :=
  match startup w with
  | AwaitingPreload =>
      actors w = [] ∧ attachedHats w = ∅ ∧ onClick w = ∅ ∧
      next_actor w = 0 ∧ next_asset w = 0 ∧ HatDatabase w = db
  | MenuShown =>
      List.filter unattached (actors w) = menu_actors (constructed db url)
  | _ => True
  end.

(** A menu button: the only actors that the application creates with a
    collider. *)
Definition is_button (b : Actor) : bool :=
  match collider (actor_like b) with
  | Some ColliderAuto => true
  | None => false
  end.

End Observations.

(** ** A concrete session: the catalog of the specification's scenario, with
    a third hat whose load fails. *)

Definition demo_math : MREMath :=
  {| Quaternion := number * number * number;
     FromEulerAngles := λ ex ey ez, (ex, ey, ez);
     DegreesToRadians := 0.017453292519943295 |}.

Definition v3 (a b c : number) : Vector3 := {| v_x := a; v_y := b; v_z := c |}.

Definition none_hat : HatDescriptor :=
  {| displayName := "None"; resourceName := Some "";
     scale := v3 1 1 1; rotation := v3 0 0 0; position := v3 0 0 0 |}.

Definition cap_hat : HatDescriptor :=
  {| displayName := "Cap"; resourceName := Some "cap.glb";
     scale := v3 1 1 1; rotation := v3 0 90 0; position := v3 0 0.1 0 |}.

Definition top_hat : HatDescriptor :=
  {| displayName := "Top Hat"; resourceName := Some "tophat.glb";
     scale := v3 1 1 1; rotation := v3 0 0 0; position := v3 0 0.2 0 |}.

Definition demo_db : list (string * HatDescriptor) :=
  [ ("none", none_hat); ("cap", cap_hat); ("tophat", top_hat) ].

Definition cap_assets : list Asset :=
  [ {| asset_id := 40; asset_name := "felt"; prefab := None;
       asset_box := None |};
    {| asset_id := 41; asset_name := "cap"; prefab := Some PrefabDefinition;
       asset_box := None |};
    {| asset_id := 42; asset_name := "cap-lod"; prefab := Some PrefabDefinition;
       asset_box := None |} ].

(** The session starts, the cap loads, the top hat fails to load. *)
Definition demo_events : list Event :=
  [ SessionStarted;
    LoadSettled "tophat" (Failed "404");
    LoadSettled "cap" (Loaded cap_assets) ].

Definition demo_constructed : @World demo_math :=
  constructed demo_db "http://host/public".

(** The session has started and its loads are pending. *)
Definition demo_started : @World demo_math :=
  run [SessionStarted] demo_constructed.

Definition demo_world : @World demo_math := run demo_events demo_constructed.

Definition alice : User := {| user_id := "alice" |}.
Definition bob : User := {| user_id := "bob" |}.

(** Alice has clicked the cap's button (actor 3 of the menu). *)
Definition demo_world_cap : @World demo_math :=
  run [Clicked 3 alice] demo_world.

(** A catalog that declares two integer-like keys after another key, and the
    application constructed on the object parsed from it. *)
Definition numbered_db : list (string * HatDescriptor) :=
  [ ("hat", cap_hat); ("10", top_hat); ("2", none_hat) ].

Definition numbered_constructed : @World demo_math :=
  constructed (own_properties numbered_db) "http://host/public".

(** * Properties *)

Section Proofs.
Context `{MREMath}.

(** Reduce the projections and setters of worlds, and nothing else. *)
Ltac wsimpl :=
  cbn beta iota zeta delta
    [fst snd HatDatabase baseUrl prefabs attachedHats actors next_actor assets
     next_asset onClick loads startup errors_logged set_prefabs
     set_attachedHats set_actors set_next_actor set_assets set_onClick
     set_loads set_startup set_errors_logged].

Ltac run_M :=
  unfold mbind, M_bind, mret, M_ret, gets, modify, throw, defined, destroy,
    Actor_CreateFromPrefab, Actor_Create, create; wsimpl.

Lemma World_ext (w1 w2 : World) :
  HatDatabase w1 = HatDatabase w2 → baseUrl w1 = baseUrl w2 →
  prefabs w1 = prefabs w2 → attachedHats w1 = attachedHats w2 →
  actors w1 = actors w2 → next_actor w1 = next_actor w2 →
  assets w1 = assets w2 → next_asset w1 = next_asset w2 →
  onClick w1 = onClick w2 → loads w1 = loads w2 →
  startup w1 = startup w2 → errors_logged w1 = errors_logged w2 →
  w1 = w2.
Proof. destruct w1, w2. cbn. by intros -> -> -> -> -> -> -> -> -> -> -> ->. Qed.

Ltac world_eq := apply World_ext; wsimpl; try reflexivity.

(** ** The hat database as a table *)

Lemma db_lookup_None key (db : list (string * HatDescriptor)) :
  db_lookup key db = None ↔ key ∉ Object_keys db.
Proof.
  unfold db_lookup, Object_keys.
  induction db as [|[k d] db IH]; simpl.
  - split; [intros _; apply not_elem_of_nil | done].
  - destruct (String.eqb_spec k key) as [->|Hne]; simpl.
    + split; [done | intros Hn; exfalso; apply Hn; left].
    + rewrite IH, not_elem_of_cons.
      split; [intros Hn; split; [congruence | done] | by intros [_ Hn]].
Qed.

Lemma db_lookup_Some key d (db : list (string * HatDescriptor)) :
  NoDup (Object_keys db) → (key, d) ∈ db → db_lookup key db = Some d.
Proof.
  unfold db_lookup, Object_keys.
  induction db as [|[k d'] db IH]; simpl; intros Hnd Hin.
  - by apply elem_of_nil in Hin.
  - apply NoDup_cons in Hnd as [Hk Hnd].
    apply elem_of_cons in Hin as [Heq|Hin].
    + inversion Heq; subst. by rewrite String.eqb_refl.
    + destruct (String.eqb_spec k key) as [->|Hne]; simpl; [|by apply IH].
      destruct Hk. apply list_elem_of_fmap. by exists (key, d).
Qed.

(** ** [taken_off]: what the first two lines of both methods do *)

Lemma taken_off_entry u (w : World) : attachedHats (taken_off u w) !! u = None.
Proof.
  unfold taken_off. destruct (attachedHats w !! u); simpl; apply lookup_delete_eq.
Qed.

Lemma taken_off_other u v (w : World) :
  v ≠ u → attachedHats (taken_off u w) !! v = attachedHats w !! v.
Proof.
  intros Hne. unfold taken_off.
  destruct (attachedHats w !! u); simpl; by apply lookup_delete_ne.
Qed.

Lemma taken_off_destroys u a (w : World) :
  attachedHats w !! u = Some a → ¬ live a (taken_off u w).
Proof.
  intros Ha. unfold taken_off, live. rewrite Ha. simpl.
  intros Hin. apply list_elem_of_fmap in Hin as (b & -> & Hb).
  apply list_elem_of_filter in Hb as [Hb _]. by apply Hb.
Qed.

Lemma taken_off_absent u (w : World) :
  attachedHats w !! u = None → taken_off u w = w.
Proof.
  intros Hu. unfold taken_off. rewrite Hu.
  destruct w; unfold set_attachedHats; simpl in *. f_equal. by apply delete_id.
Qed.

Lemma taken_off_frame u (w : World) :
  HatDatabase (taken_off u w) = HatDatabase w ∧
  prefabs (taken_off u w) = prefabs w ∧
  next_actor (taken_off u w) = next_actor w.
Proof. unfold taken_off. by destruct (attachedHats w !! u). Qed.

Lemma userLeft_taken_off user (w : World) :
  userLeft user w = (Normal tt, taken_off (user_id user) w).
Proof.
  unfold userLeft, taken_off. run_M. by destruct (attachedHats w !! user_id user).
Qed.

(** [wearHat], path by path. *)
Lemma wearHat_cases hatId u (w : World) :
  wearHat hatId u w =
    match db_lookup hatId (HatDatabase w) with
    | None =>
        (if bool_decide (hatId ∈ Object_prototype_names) then Normal tt
         else Throw (TypeError "resourceName"),
         taken_off u w)
    | Some d =>
        if truthy (resourceName d) then
          match prefabs w !! hatId with
          | Some (Some pf) =>
              (Normal tt,
               set_attachedHats <[u := next_actor w]>
                 (set_next_actor (S (next_actor w))
                    (set_actors (λ l, l ++ [hat_actor (next_actor w) d pf u])
                       (taken_off u w))))
          | _ => (Throw (TypeError "id"), taken_off u w)
          end
        else (Normal tt, taken_off u w)
    end.
Proof.
  unfold wearHat, taken_off, HatDatabase_get. run_M.
  destruct (attachedHats w !! u); run_M;
    (destruct (db_lookup hatId (HatDatabase w)) as [d|];
       [|by destruct (bool_decide (hatId ∈ Object_prototype_names))]);
    (destruct (truthy (resourceName d)); cbn [negb]; [|done]);
    run_M; by destruct (prefabs w !! hatId) as [[pf|]|].
Qed.

(** C3 (idempotent leave): [userLeft] never throws and always leaves the user
    without an entry; when the user has no entry the world is unchanged; a
    second call in a row changes nothing more. *)
Theorem userLeft_idempotent (user : User) (w : World) :
  (userLeft user w).1 = Normal tt ∧
  attachedHats (userLeft user w).2 !! user_id user = None ∧
  (attachedHats w !! user_id user = None → userLeft user w = (Normal tt, w)) ∧
  userLeft user (userLeft user w).2 = userLeft user w.
Proof.
  rewrite !userLeft_taken_off. simpl. split_and!.
  - done.
  - apply taken_off_entry.
  - intros Hu. by rewrite taken_off_absent.
  - f_equal. apply taken_off_absent, taken_off_entry.
Qed.

(** C4 ("none" clears the state): for a user wearing the instance [a],
    selecting an entry whose [resourceName] is empty or absent returns
    normally, destroys [a], leaves no entry for the user and creates no
    actor. *)
Theorem wearHat_none_clears hatId u a d (w : World) :
  attachedHats w !! u = Some a →
  db_lookup hatId (HatDatabase w) = Some d →
  truthy (resourceName d) = false →
  ∃ w', wearHat hatId u w = (Normal tt, w') ∧
    ¬ live a w' ∧
    attachedHats w' !! u = None ∧
    actors w' = filter (λ b, actor_id b ≠ a) (actors w) ∧
    next_actor w' = next_actor w.
Proof.
  intros Ha Hd Hrn. exists (taken_off u w).
  rewrite wearHat_cases, Hd, Hrn. split_and!.
  - done.
  - by apply taken_off_destroys.
  - apply taken_off_entry.
  - unfold taken_off. by rewrite Ha.
  - apply taken_off_frame.
Qed.

(** C7 (attaching): with a descriptor that names a resource and a prefab in
    the table, [wearHat] returns normally, creates exactly one actor from
    that prefab with the descriptor's position and scale, the rotation
    [FromEulerAngles] of the descriptor's angles times [DegreesToRadians]
    (in the order x, y, z), attached to the user's head, and records it
    for the user. *)
Theorem wearHat_attaches hatId u d pf (w : World) :
  db_lookup hatId (HatDatabase w) = Some d →
  truthy (resourceName d) = true →
  prefabs w !! hatId = Some (Some pf) →
  ∃ w' hat, wearHat hatId u w = (Normal tt, w') ∧
    actors w' = actors (taken_off u w) ++ [hat] ∧
    attachedHats w' !! u = Some (actor_id hat) ∧
    actor_id hat = next_actor w ∧
    actor_prefabId hat = Some (asset_id pf) ∧
    transform_local (actor_like hat) =
      {| t_position := Some (position d);
         t_rotation := Some (FromEulerAngles
           (v_x (rotation d) * DegreesToRadians)
           (v_y (rotation d) * DegreesToRadians)
           (v_z (rotation d) * DegreesToRadians));
         t_scale := Some (scale d) |} ∧
    attachment (actor_like hat) =
      Some {| attachPoint := "head"; userId := u |}.
Proof.
  intros Hd Hrn Hpf. rewrite wearHat_cases, Hd, Hrn, Hpf.
  eexists _, (hat_actor (next_actor w) d pf u). split_and!; try done.
  simpl. apply lookup_insert_eq.
Qed.

(** C9 (unknown hat): for a [hatId] that is not a key of the hat database,
    [wearHat] first destroys the user's hat and deletes the entry, and then:
    when [hatId] is not the name of a member inherited from
    [Object.prototype] either, the lookup is [undefined] and the read of
    [resourceName] throws a [TypeError]; when it is such a name ("toString",
    "constructor", "__proto__", ...), the lookup finds the inherited member,
    whose [resourceName] is [undefined], and the call returns normally.  In
    both cases the world left behind is the one with the hat taken off. *)
Theorem wearHat_unknown_hat hatId u (w : World) :
  hatId ∉ Object_keys (HatDatabase w) →
  (hatId ∉ Object_prototype_names →
     wearHat hatId u w = (Throw (TypeError "resourceName"), taken_off u w)) ∧
  (hatId ∈ Object_prototype_names →
     wearHat hatId u w = (Normal tt, taken_off u w)) ∧
  (wearHat hatId u w).2 = taken_off u w ∧
  attachedHats (taken_off u w) !! u = None ∧
  (∀ a, attachedHats w !! u = Some a → ¬ live a (taken_off u w)) ∧
  actors (taken_off u w) =
    match attachedHats w !! u with
    | Some a => filter (λ b, actor_id b ≠ a) (actors w)
    | None => actors w
    end.
Proof.
  intros Hk. apply db_lookup_None in Hk.
  rewrite wearHat_cases, Hk. split_and!.
  - intros Hn. by rewrite bool_decide_eq_false_2.
  - intros Hin. by rewrite bool_decide_eq_true_2.
  - done.
  - apply taken_off_entry.
  - intros a. apply taken_off_destroys.
  - unfold taken_off. by destruct (attachedHats w !! u).
Qed.

(** When the descriptor names a resource and the prefab table has no prefab
    for [hatId] (no entry, or an entry holding [undefined]), [wearHat] throws
    a [TypeError] at the read of [id]; the world left behind is the one with
    the user's hat taken off, so no actor is created and no entry recorded. *)
Lemma wearHat_without_prefab hatId u d (w : World) :
  db_lookup hatId (HatDatabase w) = Some d →
  truthy (resourceName d) = true →
  mjoin (prefabs w !! hatId) = None →
  wearHat hatId u w = (Throw (TypeError "id"), taken_off u w).
Proof.
  intros Hd Hrn Hpf. rewrite wearHat_cases, Hd, Hrn.
  by destruct (prefabs w !! hatId) as [[pf|]|].
Qed.

(** C10 (frame): [wearHat] and [userLeft] for the user [u] leave the entry
    of every other user as it was, and leave the hat database and the prefab
    table as they were, whether they return or throw. *)
Theorem other_users_untouched hatId u v (w : World) :
  v ≠ u →
  (attachedHats (wearHat hatId u w).2 !! v = attachedHats w !! v ∧
   HatDatabase (wearHat hatId u w).2 = HatDatabase w ∧
   prefabs (wearHat hatId u w).2 = prefabs w) ∧
  (attachedHats (userLeft {| user_id := u |} w).2 !! v = attachedHats w !! v ∧
   HatDatabase (userLeft {| user_id := u |} w).2 = HatDatabase w ∧
   prefabs (userLeft {| user_id := u |} w).2 = prefabs w).
Proof.
  intros Hne.
  pose proof (taken_off_other u v w Hne) as Hv.
  destruct (taken_off_frame u w) as (Hdb & Hpf & _).
  split.
  - rewrite wearHat_cases.
    destruct (db_lookup hatId (HatDatabase w)) as [d|]; [|done].
    destruct (truthy (resourceName d)); [|done].
    destruct (prefabs w !! hatId) as [[pf|]|]; simpl; try done.
    split_and!; try done. by rewrite lookup_insert_ne.
  - by rewrite userLeft_taken_off.
Qed.

(** ** The menu *)

Lemma entry_y_succ i : entry_y (S i) = (entry_y i + 0.5)%Q.
Proof. done. Qed.

Lemma entry_y_closed i : (entry_y i == 0.3 + 0.5 * inject_Z (Z.of_nat i))%Q.
Proof.
  induction i as [|i IH].
  - change (0.3 == 0.3 + 0.5 * 0)%Q. lra.
  - rewrite entry_y_succ, IH, Nat2Z.inj_succ.
    unfold Z.succ. rewrite inject_Z_plus.
    change (inject_Z 1) with 1%Q. lra.
Qed.

Lemma entry_y_lt i j : i < j → (entry_y i < entry_y j)%Q.
Proof.
  induction 1 as [|j _ IH]; rewrite entry_y_succ; lra.
Qed.

Lemma menu_entries_length menu mesh entries a y :
  length (menu_entries menu mesh entries a y) = 2 * length entries.
Proof.
  revert a y. induction entries as [|[k d] entries IH]; intros a y; simpl.
  - done.
  - rewrite IH. lia.
Qed.

Lemma menu_entries_lookup menu mesh entries a y i k d :
  entries !! i = Some (k, d) →
  menu_entries menu mesh entries a y !! (2 * i) =
    Some {| actor_id := a + 2 * i; actor_prefabId := None;
            actor_like := button_like menu mesh k
                            (Nat.iter i (λ y, y + 0.5)%Q y) |} ∧
  menu_entries menu mesh entries a y !! (1 + 2 * i) =
    Some {| actor_id := a + 1 + 2 * i; actor_prefabId := None;
            actor_like := label_like menu (displayName d)
                            (Nat.iter i (λ y, y + 0.5)%Q y) |}.
Proof.
  revert a y i.
  induction entries as [|[k' d'] entries IH]; intros a y i Hi; [done|].
  destruct i as [|i]; simpl in Hi.
  - inversion Hi; subst. simpl.
    rewrite !Nat.add_0_r, Nat.add_1_r. done.
  - replace (2 * S i) with (S (S (2 * i))) by lia.
    replace (1 + S (S (2 * i))) with (S (S (1 + 2 * i))) by lia.
    destruct (IH (S (S a)) (y + 0.5)%Q i Hi) as [Hb Hl].
    rewrite Nat.iter_succ_r. simpl menu_entries.
    change ((?x :: ?y :: ?l) !! S (S ?n)) with (l !! n).
    rewrite Hb, Hl. split; do 2 f_equal; lia.
Qed.

Lemma menu_entries_unattached menu mesh entries a y :
  Forall (λ b, attachment (actor_like b) = None)
    (menu_entries menu mesh entries a y).
Proof.
  revert a y. induction entries as [|[k d] entries IH]; intros a y; simpl.
  - constructor.
  - repeat constructor. apply IH.
Qed.

Lemma menu_clicks_lookup_lt keys a m b :
  b < a → menu_clicks keys a m !! b = m !! b.
Proof.
  revert a m. induction keys as [|k keys IH]; intros a m Hb; simpl; [done|].
  rewrite IH by lia. apply lookup_insert_ne. lia.
Qed.

Lemma menu_clicks_lookup keys a m i k :
  keys !! i = Some k → menu_clicks keys a m !! (a + 2 * i) = Some k.
Proof.
  revert a m i. induction keys as [|k' keys IH]; intros a m i Hi; [done|].
  destruct i as [|i]; simpl in *.
  - inversion Hi; subst. rewrite Nat.add_0_r, menu_clicks_lookup_lt by lia.
    apply lookup_insert_eq.
  - replace (a + S (i + S (i + 0))) with (S (S a) + 2 * i) by lia.
    by apply IH.
Qed.

(** The loop of [showHatMenu], run on the keys of [entries]. *)
Lemma menu_items_run menu mesh entries y (w : World) :
  (∀ k d, (k, d) ∈ entries → db_lookup k (HatDatabase w) = Some d) →
  menu_items menu mesh (fst <$> entries) y w =
    (Normal (Nat.iter (length entries) (λ y, y + 0.5)%Q y),
     set_onClick (menu_clicks (fst <$> entries) (next_actor w))
       (set_next_actor (next_actor w + 2 * length entries)
          (set_actors
             (λ l, l ++ menu_entries menu mesh entries (next_actor w) y) w))).
Proof.
  revert y w. induction entries as [|[k d] entries IH]; intros y w Hdb.
  - cbn [fmap list_fmap menu_items length Nat.iter nat_rect menu_entries
         menu_clicks]. unfold mret, M_ret. f_equal.
    world_eq; [by rewrite app_nil_r | lia].
  - cbn [fmap list_fmap menu_items fst]. run_M. unfold setBehavior_onClick. run_M.
    rewrite (Hdb k d) by left. wsimpl.
    rewrite IH; wsimpl.
    + f_equal.
      * f_equal. symmetry. apply (Nat.iter_succ_r _ (λ y, y + 0.5)%Q).
      * cbn [menu_entries menu_clicks length].
        world_eq; [rewrite <- !app_assoc; done | lia].
    + intros k' d' Hin. apply Hdb. by right.
Qed.

Lemma enumerated_keys (db : list (string * HatDescriptor)) :
  Object_keys (enumerated db) = Object_keys db.
Proof.
  unfold Object_keys, enumerated. rewrite <- list_fmap_compose.
  by apply list_fmap_ext.
Qed.

Lemma enumerated_lookup (db : list (string * HatDescriptor)) k d :
  (k, d) ∈ enumerated db → db_lookup k db = Some d.
Proof.
  unfold enumerated. intros Hin.
  apply list_elem_of_fmap in Hin as ([k' d'] & Heq & Hin). simpl in Heq.
  inversion Heq; subst.
  destruct (db_lookup k' db) as [d''|] eqn:Hl; [done|].
  apply db_lookup_None in Hl. destruct Hl.
  apply list_elem_of_fmap. by exists (k', d').
Qed.

Lemma enumerated_NoDup (db : list (string * HatDescriptor)) :
  NoDup (Object_keys db) → enumerated db = db.
Proof.
  intros Hnd. unfold enumerated.
  transitivity (id <$> db); [|apply list_fmap_id].
  apply list_fmap_ext. intros i [k d] Hi. simpl.
  rewrite (db_lookup_Some k d db); [done | done |].
  by apply list_elem_of_lookup_2 in Hi.
Qed.

Lemma enumerated_length (db : list (string * HatDescriptor)) :
  length (enumerated db) = length db.
Proof. unfold enumerated. apply length_fmap. Qed.

(** [showHatMenu] returns, and leaves [menu_world]. *)
Lemma showHatMenu_run (w : World) : showHatMenu w = (Normal tt, menu_world w).
Proof.
  unfold showHatMenu. run_M. unfold createBoxMesh. wsimpl.
  pose proof (enumerated_keys (HatDatabase w)) as Hk. unfold Object_keys in Hk.
  unfold Object_keys. rewrite <- Hk.
  rewrite menu_items_run; wsimpl.
  - f_equal. unfold menu_world. world_eq.
    + unfold menu_actors, entry_y, button_mesh.
      by rewrite <- !app_assoc.
    + rewrite enumerated_length. lia.
    + by rewrite Hk.
  - intros k d. apply enumerated_lookup.
Qed.

(** ** The hat database as a JavaScript object *)

Lemma define_property_fresh key d (obj : list (string * HatDescriptor)) :
  key ∉ fst <$> obj → define_property key d obj = obj ++ [(key, d)].
Proof.
  induction obj as [|[k d'] obj IH]; intros Hn; [done|].
  rewrite fmap_cons in Hn. apply not_elem_of_cons in Hn as [Hne Hn].
  cbn [define_property fst app] in *.
  destruct (String.eqb_spec k key) as [->|_]; [done|]. by rewrite IH.
Qed.

Lemma fold_define_property (obj declared : list (string * HatDescriptor)) :
  NoDup (fst <$> (obj ++ declared)) →
  fold_left (λ obj kv, define_property kv.1 kv.2 obj) declared obj =
    obj ++ declared.
Proof.
  revert obj. induction declared as [|[k d] declared IH]; intros obj Hnd.
  - by rewrite app_nil_r.
  - cbn [fold_left fst snd]. rewrite define_property_fresh.
    + rewrite IH; by rewrite <- app_assoc.
    + rewrite fmap_app in Hnd. apply NoDup_app in Hnd as (_ & Hd & _).
      intros Hin. apply (Hd k Hin). rewrite fmap_cons. left.
Qed.

(** The members of a JSON object with distinct keys are created as they are
    declared. *)
Lemma created_properties_NoDup declared :
  NoDup (fst <$> declared) → created_properties declared = declared.
Proof.
  intros Hnd. unfold created_properties. by rewrite fold_define_property.
Qed.

Lemma own_properties_Permutation declared :
  NoDup (fst <$> declared) → own_properties declared ≡ₚ declared.
Proof.
  intros Hnd. unfold own_properties. rewrite created_properties_NoDup by done.
  cbn zeta. rewrite merge_sort_Permutation. apply filter_app_complement.
Qed.

Lemma filter_fst (P : string → Prop) `{!∀ k, Decision (P k)}
    (l : list (string * HatDescriptor)) :
  fst <$> filter (λ kv, P kv.1) l = filter P (fst <$> l).
Proof.
  induction l as [|[k d] l IH]; [done|].
  rewrite fmap_cons, !filter_cons. cbn [fst].
  destruct (decide (P k)); [rewrite fmap_cons|]; by rewrite IH.
Qed.

Lemma StronglySorted_lookup_lt {A} (R : relation A) l i j x y :
  StronglySorted R l → i < j → l !! i = Some x → l !! j = Some y → R x y.
Proof.
  intros Hs. revert i j. induction Hs as [|a l Hs IH Hall]; intros i j Hij Hi Hj.
  - done.
  - destruct j as [|j]; [lia|]. cbn in Hj. destruct i as [|i]; cbn in Hi.
    + inversion Hi; subst. rewrite Forall_forall in Hall.
      apply Hall. by eapply list_elem_of_lookup_2.
    + apply (IH i j); [lia | done | done].
Qed.

(** [Object.keys] of the hat database: the array indices among the declared
    keys in ascending order, then the other keys as declared. *)
Lemma own_properties_keys declared :
  NoDup (fst <$> declared) →
  ∃ indices,
    Object_keys (own_properties declared) =
      indices ++ filter (λ k, array_index k = None) (fst <$> declared) ∧
    indices ≡ₚ filter (λ k, is_Some (array_index k)) (fst <$> declared) ∧
    ∀ i j k1 k2, i < j → indices !! i = Some k1 → indices !! j = Some k2 →
      ∃ n1 n2, array_index k1 = Some n1 ∧ array_index k2 = Some n2 ∧
               (n1 ≤ n2)%N.
Proof.
  intros Hnd. unfold own_properties, Object_keys.
  rewrite created_properties_NoDup by done. cbn zeta.
  set (indexed := filter (λ kv : string * HatDescriptor,
                            is_Some (array_index kv.1)) declared).
  assert (fst <$> merge_sort index_le indexed ≡ₚ
          filter (λ k, is_Some (array_index k)) (fst <$> declared)) as Hperm.
  { rewrite merge_sort_Permutation. unfold indexed.
    pose proof (filter_fst (λ k, is_Some (array_index k)) declared) as Hf.
    cbn beta in Hf. by rewrite Hf. }
  exists (fst <$> merge_sort index_le indexed). split_and!.
  - rewrite fmap_app. f_equal.
    pose proof (filter_fst (λ k, ¬ is_Some (array_index k)) declared) as Hf.
    cbn beta in Hf. rewrite Hf.
    apply list_filter_iff. intros k. by rewrite eq_None_not_Some.
  - done.
  - intros i j k1 k2 Hij Hi Hj.
    assert (∀ k, k ∈ fst <$> merge_sort index_le indexed →
                 is_Some (array_index k)) as Hsome.
    { intros k Hk. rewrite Hperm in Hk.
      by apply list_elem_of_filter in Hk as [Hk _]. }
    destruct (Hsome k1) as [n1 Hn1]; [by eapply list_elem_of_lookup_2|].
    destruct (Hsome k2) as [n2 Hn2]; [by eapply list_elem_of_lookup_2|].
    exists n1, n2. split_and!; [done | done |].
    apply list_lookup_fmap_Some in Hi as (kv1 & -> & Hi).
    apply list_lookup_fmap_Some in Hj as (kv2 & -> & Hj).
    pose proof (StronglySorted_lookup_lt index_le _ i j kv1 kv2
                  (StronglySorted_merge_sort index_le indexed) Hij Hi Hj) as Hle.
    unfold index_le in Hle. by rewrite Hn1, Hn2 in Hle.
Qed.

Lemma filter_no_index (l : list string) :
  Forall (λ k, array_index k = None) l →
  filter (λ k, is_Some (array_index k)) l = [] ∧
  filter (λ k, array_index k = None) l = l.
Proof.
  induction 1 as [|k l Hk _ [IH1 IH2]]; [done|]. split.
  - rewrite filter_cons, decide_False; [done|]. rewrite Hk. by intros [? ?].
  - by rewrite filter_cons, decide_True, IH2.
Qed.

Lemma own_properties_no_index declared :
  NoDup (fst <$> declared) →
  Forall (λ k, array_index k = None) (fst <$> declared) →
  Object_keys (own_properties declared) = fst <$> declared.
Proof.
  intros Hnd Hall.
  destruct (own_properties_keys declared Hnd) as (indices & -> & Hperm & _).
  destruct (filter_no_index _ Hall) as [Hnone Hsame].
  rewrite Hnone in Hperm. apply Permutation_nil_r in Hperm as ->.
  by rewrite Hsame.
Qed.

(** ** The offsets in IEEE binary64 *)

Lemma all_below_sound t n y i :
  all_below t n y = true → i < n →
  PrimFloat.ltb (Nat.iter i (λ y, y + 0.5)%float y) t = true.
Proof.
  revert y i. induction n as [|n IH]; intros y i Hn Hi; [lia|].
  cbn [all_below] in Hn. apply andb_true_iff in Hn as [Hy Hn].
  destruct i as [|i]; [done|].
  rewrite Nat.iter_succ_r. apply IH; [done | lia].
Qed.

Lemma offsets_below_sound fuel j i j' :
  offsets_below fuel j (entry_y_double j) = true →
  j ≤ j' < j + fuel → i < j' →
  PrimFloat.ltb (entry_y_double i) (entry_y_double j') = true ∧
  PrimFloat.ltb (entry_y_double i) (entry_y_double j' + 0.25) = true.
Proof.
  revert j. induction fuel as [|fuel IH]; intros j Hc Hj Hi; [lia|].
  cbn [offsets_below] in Hc.
  apply andb_true_iff in Hc as [Hc Hrest].
  apply andb_true_iff in Hc as [Hy Ht].
  destruct (decide (j' = j)) as [->|Hne].
  - split; by apply all_below_sound with (n := j).
  - apply (IH (S j)); [done | lia | done].
Qed.

Lemma entry_y_double_below i j :
  i < j → j ≤ 2000 →
  PrimFloat.ltb (entry_y_double i) (entry_y_double j) = true ∧
  PrimFloat.ltb (entry_y_double i) (entry_y_double j + 0.25) = true.
Proof.
  intros Hij Hj. apply (offsets_below_sound 2001 0); [|lia|done].
  vm_compute. reflexivity.
Qed.

(** C6 (the menu): the hat database is the object parsed from the
    declared catalog, whose keys are distinct.  [Object.keys] lists it with
    the keys that are array indices first, in ascending numeric order, then
    the other keys in declared order; it is the declared order when no key
    is an array index.  For a catalog of [N] entries, [showHatMenu] returns
    and appends exactly [2 * N + 2] actors to the context: first the
    container [{}]; then, for the [i]-th key in [Object.keys] order, a button
    (child of the container, named after the key, with the box mesh just
    created and an automatic collider, at [(0, entry_y i, 0)]) that carries
    the click handler of its key, and a label (child of the container, named
    "label", showing the [displayName] declared for the key with height 0.5,
    anchored middle-left, at [(0.5, entry_y i, 0)]); last the title (child of
    the container, eight spaces and "Wear a Hat" in yellow with height 0.8,
    anchored middle-centre, at [(0.5, entry_y N + 0.25, 0)]).  The offsets
    start at [0.3] and grow by the fixed step [0.5], so they are strictly
    increasing and the title is above every entry; computed in IEEE binary64
    as JavaScript does, the same holds for catalogs of up to 2000 entries. *)
Theorem showHatMenu_layout declared (w : World) :
  NoDup (fst <$> declared) →
  HatDatabase w = own_properties declared →
  let N := length declared in
  let menu := next_actor w in
  let keys := Object_keys (HatDatabase w) in
  (∃ indices,
     keys = indices ++ filter (λ k, array_index k = None) (fst <$> declared) ∧
     indices ≡ₚ filter (λ k, is_Some (array_index k)) (fst <$> declared) ∧
     ∀ i j k1 k2, i < j → indices !! i = Some k1 → indices !! j = Some k2 →
       ∃ n1 n2, array_index k1 = Some n1 ∧ array_index k2 = Some n2 ∧
                (n1 ≤ n2)%N) ∧
  (Forall (λ k, array_index k = None) (fst <$> declared) →
   keys = fst <$> declared) ∧
  length keys = N ∧
  ∃ w' created,
    showHatMenu w = (Normal tt, w') ∧
    actors w' = actors w ++ created ∧
    assets w' =
      assets w ++ [ {| asset_id := next_asset w; asset_name := "button";
                       prefab := None;
                       asset_box := Some (0.3, 0.3, 0.01)%Q |} ] ∧
    length created = 2 * N + 2 ∧
    created !! 0 =
      Some {| actor_id := menu; actor_prefabId := None;
              actor_like :=
                {| parentId := None; name := None; appearance_meshId := None;
                   collider := None; text := None;
                   transform_local :=
                     {| t_position := None; t_rotation := None;
                        t_scale := None |};
                   attachment := None |} |} ∧
    (∀ i hatId, keys !! i = Some hatId →
       ∃ d, (hatId, d) ∈ declared ∧
       created !! (1 + 2 * i) =
         Some {| actor_id := menu + 1 + 2 * i; actor_prefabId := None;
                 actor_like :=
                   {| parentId := Some menu; name := Some hatId;
                      appearance_meshId := Some (next_asset w);
                      collider := Some ColliderAuto; text := None;
                      transform_local :=
                        {| t_position :=
                             Some {| v_x := 0; v_y := entry_y i; v_z := 0 |};
                           t_rotation := None; t_scale := None |};
                      attachment := None |} |} ∧
       created !! (2 + 2 * i) =
         Some {| actor_id := menu + 2 + 2 * i; actor_prefabId := None;
                 actor_like :=
                   {| parentId := Some menu; name := Some "label";
                      appearance_meshId := None; collider := None;
                      text := Some {| contents := displayName d;
                                      height := 0.5; anchor := MiddleLeft;
                                      color := None |};
                      transform_local :=
                        {| t_position :=
                             Some {| v_x := 0.5; v_y := entry_y i; v_z := 0 |};
                           t_rotation := None; t_scale := None |};
                      attachment := None |} |} ∧
       onClick w' !! (menu + 1 + 2 * i) = Some hatId) ∧
    created !! (1 + 2 * N) =
      Some {| actor_id := menu + 1 + 2 * N; actor_prefabId := None;
              actor_like :=
                {| parentId := Some menu; name := Some "label";
                   appearance_meshId := None; collider := None;
                   text := Some {| contents := "        Wear a Hat";
                                   height := 0.8; anchor := MiddleCenter;
                                   color := Some Yellow |};
                   transform_local :=
                     {| t_position :=
                          Some {| v_x := 0.5; v_y := entry_y N + 0.25;
                                  v_z := 0 |};
                        t_rotation := None; t_scale := None |};
                   attachment := None |} |} ∧
    entry_y 0 = 0.3%Q ∧
    (∀ i, entry_y (S i) = (entry_y i + 0.5)%Q) ∧
    (∀ i, (entry_y i == 0.3 + 0.5 * inject_Z (Z.of_nat i))%Q) ∧
    (∀ i j, i < j → (entry_y i < entry_y j)%Q) ∧
    (∀ i, i < N → (entry_y i < entry_y N + 0.25)%Q) ∧
    (∀ i j, i < j → j ≤ 2000 →
       PrimFloat.ltb (entry_y_double i) (entry_y_double j) = true ∧
       PrimFloat.ltb (entry_y_double i) (entry_y_double j + 0.25) = true).
Proof.
  intros Hdecl Hdb N menu keys.
  pose proof (own_properties_Permutation declared Hdecl) as Hperm.
  assert (NoDup (Object_keys (HatDatabase w))) as Hnd.
  { unfold Object_keys. by rewrite Hdb, Hperm. }
  assert (length (HatDatabase w) = N) as HN.
  { unfold N. by rewrite Hdb, Hperm. }
  split_and!.
  - unfold keys. rewrite Hdb. by apply own_properties_keys.
  - unfold keys. rewrite Hdb. by apply own_properties_no_index.
  - unfold keys, Object_keys. by rewrite length_fmap.
  - exists (menu_world w), (menu_actors w).
    pose proof (menu_entries_length menu (button_mesh w) (HatDatabase w)
                  (S menu) 0.3%Q) as Hlen.
    unfold menu_actors. rewrite (enumerated_NoDup _ Hnd). fold menu.
    split_and!.
    + rewrite showHatMenu_run. do 2 f_equal.
    + unfold menu_world. wsimpl. f_equal. unfold menu_actors.
      by rewrite (enumerated_NoDup _ Hnd).
    + unfold menu_world. by wsimpl.
    + cbn [length]. rewrite length_app, Hlen, HN. cbn [length]. lia.
    + done.
    + intros i hatId Hi. unfold keys, Object_keys in Hi.
      apply list_lookup_fmap_Some in Hi as ([k d] & -> & Hi). cbn [fst].
      exists d. split.
      { rewrite <- Hperm, <- Hdb. by eapply list_elem_of_lookup_2. }
      assert (i < N) as HiN by (rewrite <- HN; by apply lookup_lt_Some in Hi).
      destruct (menu_entries_lookup menu (button_mesh w) (HatDatabase w)
                  (S menu) 0.3%Q i k d Hi) as [Hb Hl].
      split_and!.
      * change (1 + 2 * i) with (S (2 * i)).
        rewrite lookup_cons. rewrite lookup_app_l by lia.
        rewrite Hb. by replace (menu + 1 + 2 * i) with (S menu + 2 * i) by lia.
      * change (2 + 2 * i) with (S (1 + 2 * i)).
        rewrite lookup_cons. rewrite lookup_app_l by lia.
        rewrite Hl.
        by replace (menu + 2 + 2 * i) with (S menu + 1 + 2 * i) by lia.
      * unfold menu_world. wsimpl.
        replace (menu + 1 + 2 * i) with (S menu + 2 * i) by lia.
        apply menu_clicks_lookup. unfold Object_keys.
        by rewrite list_lookup_fmap, Hi.
    + change (1 + 2 * N) with (S (2 * N)).
      rewrite lookup_cons. rewrite lookup_app_r by lia.
      rewrite Hlen, HN, Nat.sub_diag.
      by replace (menu + 1 + 2 * N) with (S menu + 2 * N) by lia.
    + done.
    + apply entry_y_succ.
    + apply entry_y_closed.
    + apply entry_y_lt.
    + intros i Hi. pose proof (entry_y_lt i N Hi). lra.
    + apply entry_y_double_below.
Qed.

(** ** Preloading *)

Lemma preload_one_run k d (w : World) :
  db_lookup k (HatDatabase w) = Some d →
  preload_one k w = (Normal (load_of (baseUrl w) (k, d)), w).
Proof.
  intros Hd. unfold preload_one. run_M. rewrite Hd. run_M.
  unfold load_of. cbn [fst snd]. by destruct (truthy (resourceName d)).
Qed.

Lemma bind_run {A B} (m : M A) (k : A → M B) (w w' : World) a :
  m w = (Normal a, w') → (m ≫= k) w = k a w'.
Proof. intros Hm. unfold mbind, M_bind. by rewrite Hm. Qed.

Lemma mapM_cons {A B} (f : A → M B) x l :
  mapM f (x :: l) = f x ≫= λ y, mapM f l ≫= λ ks, mret (y :: ks).
Proof. done. Qed.

Lemma mapM_preload_one entries (w : World) :
  (∀ k d, (k, d) ∈ entries → db_lookup k (HatDatabase w) = Some d) →
  mapM preload_one (fst <$> entries) w =
    (Normal (load_of (baseUrl w) <$> entries), w).
Proof.
  induction entries as [|[k d] entries IH]; intros Hdb; [done|].
  rewrite fmap_cons, mapM_cons. cbn [fst].
  erewrite bind_run by (apply (preload_one_run k d), Hdb; left).
  erewrite bind_run; [done|].
  apply IH. intros k' d' Hin. apply Hdb. by right.
Qed.

Lemma preloadHats_run (w : World) :
  preloadHats w =
    (Normal tt,
     set_loads (λ _, load_of (baseUrl w) <$> enumerated (HatDatabase w)) w).
Proof.
  unfold preloadHats. run_M.
  rewrite <- enumerated_keys. unfold Object_keys.
  rewrite mapM_preload_one; [done|].
  intros k d. apply enumerated_lookup.
Qed.

Lemma resume_started_run (w : World) : resume_started w = (Normal tt, resumed w).
Proof.
  unfold resume_started, resumed. run_M.
  destruct (startup w); try done.
  destruct (Promise_all (load_state <$> loads w)); try done.
  by rewrite showHatMenu_run.
Qed.

Lemma started_run (w : World) :
  started w =
    (Normal tt,
     resumed (set_startup AwaitingPreload
       (set_loads (λ _, load_of (baseUrl w) <$> enumerated (HatDatabase w)) w))).
Proof.
  unfold started. run_M. rewrite preloadHats_run. run_M.
  by rewrite resume_started_run.
Qed.

Lemma settle_run hatId o (w : World) :
  settle hatId o w =
    (Normal tt,
     if existsb (is_pending hatId) (loads w)
     then resumed (settled_world hatId o w)
     else w).
Proof.
  unfold settle, settled_world. run_M.
  destruct (existsb (is_pending hatId) (loads w)); [|done].
  destruct o as [assets|e]; unfold then_store, catch_log, log_error; run_M;
    by rewrite resume_started_run.
Qed.

Lemma Promise_all_fulfilled ps :
  Promise_all ps = Fulfilled ↔ Forall (λ s, s = Fulfilled) ps.
Proof.
  induction ps as [|s ps IH]; simpl.
  - split; [constructor | done].
  - rewrite Forall_cons. destruct s as [| |e].
    + destruct (Promise_all ps); split; (done || by intros [? _]).
    + rewrite IH. split; [done | by intros [_ ?]].
    + split; (done || by intros [? _]).
Qed.

Lemma Promise_all_rejected ps e :
  Promise_all ps = Rejected e → Exists (λ s, s = Rejected e) ps.
Proof.
  induction ps as [|s ps IH]; simpl; [done|].
  destruct s as [| |e'].
  - destruct (Promise_all ps) eqn:Hps; try done.
    intros Heq. right. apply IH. congruence.
  - intros Heq. right. by apply IH.
  - intros Heq. left. congruence.
Qed.

Lemma Promise_all_loads (ls : list Load) :
  Forall not_rejected ls →
  (Promise_all (load_state <$> ls) = Fulfilled ∧ Forall fulfilled ls) ∨
  (Promise_all (load_state <$> ls) = Pending ∧ ¬ Forall fulfilled ls).
Proof.
  intros Hnr.
  assert (Promise_all (load_state <$> ls) = Fulfilled ↔ Forall fulfilled ls)
    as Hiff by (by rewrite Promise_all_fulfilled, Forall_fmap).
  destruct (Promise_all (load_state <$> ls)) as [| |e] eqn:Hps.
  - right. split; [done|]. intros Hf. apply Hiff in Hf. done.
  - left. split; [done|]. by apply Hiff.
  - apply Promise_all_rejected in Hps.
    apply Exists_fmap, Exists_exists in Hps as (l & Hl & Hrej).
    rewrite Forall_forall in Hnr. specialize (Hnr l Hl).
    unfold not_rejected in Hnr. simpl in Hrej. by rewrite Hrej in Hnr.
Qed.

Lemma set_state_other hatId s (l : Load) :
  load_hatId l ≠ hatId → set_state hatId s l = l.
Proof.
  intros Hne. unfold set_state, is_pending.
  by destruct (String.eqb_spec (load_hatId l) hatId).
Qed.


Lemma set_state_hatId hatId s (l : Load) :
  load_hatId (set_state hatId s l) = load_hatId l.
Proof. unfold set_state. by destruct (is_pending hatId l). Qed.

Lemma set_state_not_rejected hatId (l : Load) :
  not_rejected l → not_rejected (set_state hatId Fulfilled l).
Proof. unfold set_state. by destruct (is_pending hatId l). Qed.

Lemma load_of_not_rejected base kv : not_rejected (load_of base kv).
Proof. unfold load_of, not_rejected. by destruct (truthy (resourceName kv.2)). Qed.

Lemma load_of_hatId base (entries : list (string * HatDescriptor)) :
  load_hatId <$> (load_of base <$> entries) = Object_keys entries.
Proof.
  unfold Object_keys. rewrite <- list_fmap_compose. apply list_fmap_ext.
  intros i [k d] _. unfold load_of. simpl. by destruct (truthy (resourceName d)).
Qed.

(** The asset that [find] returns is the first of the list whose [prefab]
    is not null. *)
Lemma find_first_prefab assets a :
  List.find prefab_not_null assets = Some a →
  ∃ before after, assets = before ++ a :: after ∧
    Forall (λ b, prefab b = None) before ∧ prefab a ≠ None.
Proof.
  induction assets as [|b assets IH]; cbn [List.find]; [done|].
  unfold prefab_not_null at 1.
  destruct (prefab b) eqn:Hp.
  - intros Heq. inversion Heq; subst. exists [], assets.
    split_and!; [done | constructor | by rewrite Hp].
  - intros Hf. destruct (IH Hf) as (before & after & -> & Hb & Ha).
    exists (b :: before), after. split_and!; [done | | done].
    by constructor.
Qed.

Lemma resumed_frame (w : World) :
  HatDatabase (resumed w) = HatDatabase w ∧
  prefabs (resumed w) = prefabs w ∧
  attachedHats (resumed w) = attachedHats w ∧
  loads (resumed w) = loads w ∧
  errors_logged (resumed w) = errors_logged w.
Proof.
  unfold resumed. destruct (startup w); try done.
  by destruct (Promise_all (load_state <$> loads w)).
Qed.

Lemma resumed_not_rejected (w : World) :
  Forall not_rejected (loads w) →
  (∀ e, startup w ≠ StartupRejected e) →
  ∀ e, startup (resumed w) ≠ StartupRejected e.
Proof.
  intros Hnr Hst e. unfold resumed.
  destruct (startup w) eqn:Hs; try (rewrite Hs; done).
  destruct (Promise_all_loads _ Hnr) as [[-> _]|[-> _]]; [done|].
  by rewrite Hs.
Qed.

Lemma is_pending_spec hatId (l : Load) :
  is_pending hatId l = true ↔ load_hatId l = hatId ∧ load_state l = Pending.
Proof.
  unfold is_pending. rewrite andb_true_iff, String.eqb_eq.
  destruct (load_state l); split; intros [Hh Hs]; done.
Qed.

Lemma existsb_is_pending hatId (w : World) :
  existsb (is_pending hatId) (loads w) = true ↔ load_pending hatId w.
Proof.
  rewrite existsb_exists. unfold load_pending.
  split; intros (l & Hl & Hp); exists l.
  - apply is_pending_spec in Hp. by rewrite list_elem_of_In.
  - rewrite <- list_elem_of_In. split; [tauto|]. apply is_pending_spec. tauto.
Qed.

(** [find] returns the first asset of the list whose [prefab] is not null,
    and [undefined] when there is none. *)
Lemma find_prefab_first before a after :
  Forall (λ b, prefab b = None) before → prefab a ≠ None →
  List.find prefab_not_null (before ++ a :: after) = Some a.
Proof.
  intros Hb Ha. induction Hb as [|b before Hb _ IH]; cbn [app List.find].
  - unfold prefab_not_null. by destruct (prefab a).
  - unfold prefab_not_null at 1. by rewrite Hb.
Qed.

Lemma find_prefab_none assets :
  Forall (λ b, prefab b = None) assets →
  List.find prefab_not_null assets = None.
Proof.
  induction 1 as [|b assets Hb _ IH]; cbn [List.find]; [done|].
  unfold prefab_not_null at 1. by rewrite Hb.
Qed.

(** C5 (preloading): [preloadHats] makes one promise per entry of the hat
    database, in key order: for an entry whose [resourceName] is a non-empty
    string, a pending load of [baseUrl/resourceName]; for an entry without
    [resourceName] or with the empty string, a promise fulfilled at once;
    and it stores nothing in the prefab table by itself.  When the pending
    load of [hatId] succeeds, the first asset of the result whose [prefab]
    is not null is stored under [hatId] ([undefined] if there is none) and
    the other entries are untouched; when it fails, the error is logged
    under "app" and the table is left as it was.  In both cases the chain of
    [hatId] is fulfilled, the promises of the other hats are untouched,
    nothing is thrown, and [started] is not rejected. *)
Theorem preloadHats_outcomes hatId (w : World) :
  NoDup (Object_keys (HatDatabase w)) →
  (∃ w', preloadHats w = (Normal tt, w') ∧
     prefabs w' = prefabs w ∧
     errors_logged w' = errors_logged w ∧
     length (loads w') = length (HatDatabase w) ∧
     ∀ i k d, HatDatabase w !! i = Some (k, d) →
       (∀ rn, resourceName d = Some rn → rn ≠ "" →
          loads w' !! i =
            Some {| load_hatId := k;
                    load_url := Some (baseUrl w +:+ "/" +:+ rn);
                    load_state := Pending |}) ∧
       (resourceName d = None ∨ resourceName d = Some "" →
          loads w' !! i =
            Some {| load_hatId := k; load_url := None;
                    load_state := Fulfilled |})) ∧
  (load_pending hatId w →
   ∀ o, ∃ w', settle hatId o w = (Normal tt, w') ∧
     match o with
     | Loaded assets =>
         (∀ before a after, assets = before ++ a :: after →
            Forall (λ b, prefab b = None) before → prefab a ≠ None →
            prefabs w' !! hatId = Some (Some a)) ∧
         (Forall (λ b, prefab b = None) assets →
            prefabs w' !! hatId = Some None) ∧
         (∀ k, k ≠ hatId → prefabs w' !! k = prefabs w !! k) ∧
         errors_logged w' = errors_logged w
     | Failed e =>
         prefabs w' = prefabs w ∧
         (prefabs w !! hatId = None → prefabs w' !! hatId = None) ∧
         errors_logged w' = errors_logged w ++ [("app", e)]
     end ∧
     length (loads w') = length (loads w) ∧
     (∀ i l, loads w !! i = Some l → load_hatId l = hatId →
        load_state l = Pending →
        loads w' !! i = Some {| load_hatId := hatId; load_url := load_url l;
                                load_state := Fulfilled |}) ∧
     (∀ i l, loads w !! i = Some l →
        load_hatId l ≠ hatId ∨ load_state l ≠ Pending →
        loads w' !! i = Some l) ∧
     (Forall not_rejected (loads w) →
      (∀ e, startup w ≠ StartupRejected e) →
      Forall not_rejected (loads w') ∧ ∀ e, startup w' ≠ StartupRejected e)).
Proof.
  intros Hnd. split.
  - eexists. split; [apply preloadHats_run|]. wsimpl.
    rewrite (enumerated_NoDup _ Hnd). split_and!; try done.
    + by rewrite length_fmap.
    + intros i k d Hi. rewrite list_lookup_fmap, Hi. cbn [fmap option_fmap option_map].
      unfold load_of. cbn [fst snd]. split.
      * intros rn Hrn Hne. rewrite Hrn. cbn [truthy template].
        apply String.eqb_neq in Hne. by rewrite Hne.
      * by intros [->| ->].
  - intros Hp o. apply existsb_is_pending in Hp.
    eexists. split; [apply settle_run|]. rewrite Hp.
    destruct (resumed_frame (settled_world hatId o w))
      as (_ & Hpf & _ & Hl & Herr).
    rewrite Hpf, Hl, Herr.
    assert (loads (settled_world hatId o w) =
            set_state hatId Fulfilled <$> loads w) as Hloads
      by (unfold settled_world; by destruct o).
    assert (Forall not_rejected (loads w) →
            Forall not_rejected (loads (settled_world hatId o w))) as Hnr.
    { intros Hnr. rewrite Hloads.
      apply Forall_fmap. eapply Forall_impl; [|apply set_state_not_rejected].
      done. }
    split_and!.
    + destruct o as [assets|e]; unfold settled_world; wsimpl; split_and!;
        try done.
      * intros before a after -> Hb Ha.
        by rewrite lookup_insert_eq, find_prefab_first.
      * intros Hnone. by rewrite lookup_insert_eq, find_prefab_none.
      * intros k Hk. by rewrite lookup_insert_ne.
    + by rewrite Hloads, length_fmap.
    + intros i l Hi Hh Hpend. rewrite Hloads.
      rewrite list_lookup_fmap, Hi. cbn [fmap option_fmap option_map].
      unfold set_state, is_pending.
      by rewrite Hh, Hpend, String.eqb_refl.
    + intros i l Hi Hcase. rewrite Hloads.
      rewrite list_lookup_fmap, Hi. cbn [fmap option_fmap option_map].
      f_equal. unfold set_state.
      destruct (is_pending hatId l) eqn:Hpl; [|done].
      apply is_pending_spec in Hpl as [? ?]. by destruct Hcase.
    + intros Hnr0 Hst. split; [by apply Hnr|].
      apply resumed_not_rejected; [by apply Hnr|].
      unfold settled_world. wsimpl. by destruct o.
Qed.

(** ** The session: start-up and the events that follow *)


Lemma run_app es1 es2 (w : World) : run (es1 ++ es2) w = run es2 (run es1 w).
Proof. unfold run. apply foldl_app. Qed.

Lemma wearHat_session hatId u (w : World) :
  HatDatabase (wearHat hatId u w).2 = HatDatabase w ∧
  loads (wearHat hatId u w).2 = loads w ∧
  startup (wearHat hatId u w).2 = startup w ∧
  onClick (wearHat hatId u w).2 = onClick w.
Proof.
  rewrite wearHat_cases. unfold taken_off.
  destruct (db_lookup hatId (HatDatabase w)) as [d|];
    [destruct (truthy (resourceName d));
       [destruct (prefabs w !! hatId) as [[pf|]|]|]|];
    by destruct (attachedHats w !! u).
Qed.

Lemma userLeft_session user (w : World) :
  HatDatabase (userLeft user w).2 = HatDatabase w ∧
  loads (userLeft user w).2 = loads w ∧
  startup (userLeft user w).2 = startup w ∧
  onClick (userLeft user w).2 = onClick w.
Proof.
  rewrite userLeft_taken_off. unfold taken_off. simpl.
  by destruct (attachedHats w !! user_id user).
Qed.






Lemma dispatch_frame e (w : World) :
  HatDatabase (dispatch w e) = HatDatabase w ∧
  (e ≠ SessionStarted → startup w ≠ NotStarted →
   startup (dispatch w e) ≠ NotStarted).
Proof.
  unfold dispatch. destruct e as [|hatId o|button user|user]; simpl.
  - rewrite started_run. cbn [snd]. split; [|done].
    etrans; [apply resumed_frame | done].
  - rewrite settle_run. simpl.
    destruct (existsb (is_pending hatId) (loads w)); [|done].
    split.
    + etrans; [apply resumed_frame|]. unfold settled_world. by destruct o.
    + intros _ Hs.
      assert (startup (settled_world hatId o w) = startup w) as Hsw
        by (unfold settled_world; by destruct o).
      unfold resumed. rewrite Hsw.
      destruct (startup w) eqn:Hst; try done; try (by rewrite Hsw).
      destruct (Promise_all _); try done; by rewrite Hsw.
  - unfold mbind, M_bind, gets. simpl.
    destruct (onClick w !! button) as [hatId|]; [|done].
    destruct (wearHat_session hatId (user_id user) w) as (-> & _ & -> & _).
    done.
  - destruct (userLeft_session user w) as (-> & _ & -> & _). done.
Qed.



(** ** One hat per user *)

Lemma hat_ids_app u (l l' : list Actor) :
  actor_id <$> List.filter (attached_to u) (l ++ l') =
  (actor_id <$> List.filter (attached_to u) l) ++
  (actor_id <$> List.filter (attached_to u) l').
Proof. by rewrite List.filter_app, fmap_app. Qed.

Lemma hat_ids_unattached u (l : list Actor) :
  Forall (λ b, attachment (actor_like b) = None) l →
  actor_id <$> List.filter (attached_to u) l = [].
Proof.
  induction 1 as [|b l Hb _ IH]; [done|].
  cbn [List.filter]. unfold attached_to at 1. rewrite Hb. exact IH.
Qed.

Lemma hat_ids_filter_out u a (l : list Actor) :
  actor_id <$> List.filter (attached_to u) (filter (λ b, actor_id b ≠ a) l) =
  filter (λ i, i ≠ a) (actor_id <$> List.filter (attached_to u) l).
Proof.
  induction l as [|b l IH]; [done|].
  rewrite filter_cons. cbn [List.filter].
  destruct (decide (actor_id b ≠ a)) as [Hne|Heq].
  - cbn [List.filter]. destruct (attached_to u b); [|done].
    rewrite !fmap_cons, filter_cons_True by done. by rewrite IH.
  - destruct (attached_to u b); [|done].
    rewrite fmap_cons, filter_cons_False by done. exact IH.
Qed.

Lemma filter_out_notin a (l : list ActorId) :
  a ∉ l → filter (λ i, i ≠ a) l = l.
Proof.
  induction l as [|i l IH]; [done|]. intros Hn.
  apply not_elem_of_cons in Hn as [Hne Hn].
  rewrite filter_cons_True by done. by rewrite IH.
Qed.

Lemma filter_out_ids_subset a (l : list Actor) i :
  i ∈ actor_id <$> filter (λ b, actor_id b ≠ a) l →
  i ∈ actor_id <$> l ∧ i ≠ a.
Proof.
  intros Hin. apply list_elem_of_fmap in Hin as (b & -> & Hb).
  apply list_elem_of_filter in Hb as [Hne Hb]. split; [|done].
  by apply list_elem_of_fmap_2.
Qed.

Lemma filter_out_NoDup a (l : list Actor) :
  NoDup (actor_id <$> l) → NoDup (actor_id <$> filter (λ b, actor_id b ≠ a) l).
Proof.
  induction l as [|b l IH]; [done|]. rewrite fmap_cons, NoDup_cons.
  intros [Hb Hnd]. rewrite filter_cons.
  destruct (decide (actor_id b ≠ a)); [|by apply IH].
  rewrite fmap_cons, NoDup_cons. split; [|by apply IH].
  intros Hin. by apply filter_out_ids_subset in Hin as [Hin _].
Qed.

(** With distinct handles, an actor attached to [u] is not attached to
    another user. *)
Lemma hat_ids_disjoint u v a (l : list Actor) :
  NoDup (actor_id <$> l) → u ≠ v →
  a ∈ actor_id <$> List.filter (attached_to u) l →
  a ∉ actor_id <$> List.filter (attached_to v) l.
Proof.
  intros Hnd Huv. induction l as [|b l IH]; [by intros ?%elem_of_nil|].
  rewrite fmap_cons, NoDup_cons in Hnd. destruct Hnd as [Hb Hnd].
  assert (∀ x, a ∈ actor_id <$> List.filter (attached_to x) l →
               a ∈ actor_id <$> l) as Hsub.
  { intros x Hin. apply list_elem_of_fmap in Hin as (c & -> & Hc).
    apply list_elem_of_fmap_2, list_elem_of_In.
    apply list_elem_of_In, List.filter_In in Hc. tauto. }
  cbn [List.filter].
  destruct (attached_to u b) eqn:Hu, (attached_to v b) eqn:Hv.
  - unfold attached_to in Hu, Hv.
    destruct (attachment (actor_like b)) as [att|]; [|done].
    apply String.eqb_eq in Hu, Hv. congruence.
  - rewrite fmap_cons. intros [->|Hin]%elem_of_cons Hin'.
    + destruct Hb. by eapply Hsub.
    + by apply IH.
  - rewrite fmap_cons. intros Hin [->|Hin']%elem_of_cons.
    + destruct Hb. by eapply Hsub.
    + by apply IH.
  - by apply IH.
Qed.

Lemma hat_inv_ext (w w' : World) :
  actors w' = actors w → next_actor w' = next_actor w →
  attachedHats w' = attachedHats w → hat_inv w → hat_inv w'.
Proof.
  unfold hat_inv, one_hat, hats_of, fresh_ids. by intros -> -> ->.
Qed.

Lemma taken_off_hat_inv u (w : World) : hat_inv w → hat_inv (taken_off u w).
Proof.
  intros (Hone & Hfresh & Hnd). unfold taken_off.
  destruct (attachedHats w !! u) as [a|] eqn:Hu.
  - split_and!.
    + intros v. unfold one_hat, hats_of. wsimpl.
      rewrite hat_ids_filter_out.
      pose proof (Hone u) as Hou. unfold one_hat, hats_of in Hou.
      rewrite Hu in Hou. cbn [option_list] in Hou.
      destruct (decide (v = u)) as [->|Hne].
      * rewrite Hou, lookup_delete_eq. cbn [option_list option_rect].
        rewrite filter_cons_False; [done|]. intros Hn. by apply Hn.
      * rewrite lookup_delete_ne by done.
        rewrite filter_out_notin; [apply Hone|].
        apply (hat_ids_disjoint u v); [done | done |].
        rewrite Hou. cbn [option_list option_rect]. by left.
    + unfold fresh_ids. wsimpl. unfold fresh_ids in Hfresh.
      rewrite Forall_forall in Hfresh |- *.
      intros b Hb. apply list_elem_of_filter in Hb as [_ Hb]. by apply Hfresh.
    + wsimpl. by apply filter_out_NoDup.
  - split_and!; try done.
    intros v. unfold one_hat, hats_of. wsimpl.
    destruct (decide (v = u)) as [->|Hne].
    + rewrite lookup_delete_eq. pose proof (Hone u) as Hou.
      unfold one_hat, hats_of in Hou. by rewrite Hu in Hou.
    + rewrite lookup_delete_ne by done. apply Hone.
Qed.

Lemma taken_off_actors u (w : World) i :
  i ∈ actor_id <$> actors (taken_off u w) → i ∈ actor_id <$> actors w.
Proof.
  unfold taken_off. destruct (attachedHats w !! u) as [a|]; wsimpl; [|done].
  intros Hin. by apply filter_out_ids_subset in Hin as [Hin _].
Qed.

(** Appending actors with the next handles of the context keeps the handles
    fresh and distinct. *)
Lemma fresh_ids_app (l new : list Actor) n k :
  Forall (λ a, actor_id a < n) l → NoDup (actor_id <$> l) →
  actor_id <$> new = seq n k →
  Forall (λ a, actor_id a < n + k) (l ++ new) ∧ NoDup (actor_id <$> l ++ new).
Proof.
  intros Hl Hnd Hnew. rewrite Forall_forall in Hl.
  assert (∀ b, b ∈ new → n ≤ actor_id b < n + k) as Hb.
  { intros b Hb. apply elem_of_seq. rewrite <- Hnew.
    by apply list_elem_of_fmap_2. }
  split.
  - apply Forall_app. split; apply Forall_forall.
    + intros a Ha. specialize (Hl a Ha). lia.
    + intros a Ha. specialize (Hb a Ha). lia.
  - rewrite fmap_app. apply NoDup_app. split_and!.
    + done.
    + intros i Hi Hi'.
      apply list_elem_of_fmap in Hi as (a & -> & Ha).
      apply list_elem_of_fmap in Hi' as (b & Heq & Hb').
      specialize (Hl a Ha). specialize (Hb b Hb'). lia.
    + rewrite Hnew. apply NoDup_seq.
Qed.

Lemma menu_entries_seq menu mesh entries a y :
  actor_id <$> menu_entries menu mesh entries a y = seq a (2 * length entries).
Proof.
  revert a y. induction entries as [|[k d] entries IH]; intros a y; [done|].
  cbn [menu_entries length]. rewrite !fmap_cons, IH.
  replace (2 * S (length entries)) with (S (S (2 * length entries))) by lia.
  done.
Qed.

Lemma menu_actors_seq (w : World) :
  actor_id <$> menu_actors w =
  seq (next_actor w) (2 * length (HatDatabase w) + 2).
Proof.
  unfold menu_actors. rewrite fmap_cons, fmap_app, menu_entries_seq.
  rewrite enumerated_length. cbn [fmap list_fmap actor_id].
  replace (2 * length (HatDatabase w) + 2)
    with (S (S (2 * length (HatDatabase w)))) by lia.
  change (seq ?n (S (S ?k))) with (n :: seq (S n) (S k)).
  by rewrite seq_S.
Qed.

Lemma menu_actors_unattached (w : World) :
  Forall (λ b, attachment (actor_like b) = None) (menu_actors w).
Proof.
  unfold menu_actors. constructor; [done|].
  apply Forall_app. split; [apply menu_entries_unattached|].
  by constructor.
Qed.

Lemma menu_world_hat_inv (w : World) : hat_inv w → hat_inv (menu_world w).
Proof.
  intros (Hone & Hfresh & Hnd). unfold menu_world.
  destruct (fresh_ids_app (actors w) (menu_actors w) (next_actor w)
              (2 * length (HatDatabase w) + 2) Hfresh Hnd (menu_actors_seq w))
    as [Hf Hn].
  split_and!.
  - intros u. unfold one_hat, hats_of. wsimpl.
    rewrite hat_ids_app, (hat_ids_unattached u (menu_actors w)), app_nil_r.
    + apply Hone.
    + apply menu_actors_unattached.
  - unfold fresh_ids. wsimpl.
    by replace (next_actor w + 2 * length (HatDatabase w) + 2)
      with (next_actor w + (2 * length (HatDatabase w) + 2)) by lia.
  - by wsimpl.
Qed.

Lemma resumed_hat_inv (w : World) : hat_inv w → hat_inv (resumed w).
Proof.
  intros Hinv. unfold resumed. destruct (startup w); try done.
  destruct (Promise_all _); try done.
  apply (hat_inv_ext (menu_world w)); try done. by apply menu_world_hat_inv.
Qed.

Lemma userLeft_hat_inv user (w : World) :
  hat_inv w → hat_inv (userLeft user w).2.
Proof. rewrite userLeft_taken_off. apply taken_off_hat_inv. Qed.

Lemma wearHat_hat_inv hatId u (w : World) :
  hat_inv w → hat_inv (wearHat hatId u w).2.
Proof.
  intros Hinv. pose proof (taken_off_hat_inv u w Hinv) as Hoff.
  rewrite wearHat_cases.
  destruct (db_lookup hatId (HatDatabase w)) as [d|]; [|done].
  destruct (truthy (resourceName d)); [|done].
  destruct (prefabs w !! hatId) as [[pf|]|]; try done.
  cbn [snd]. destruct Hoff as (Hone & Hfresh & Hnd).
  destruct (taken_off_frame u w) as (_ & _ & Hnext).
  unfold fresh_ids in Hfresh. rewrite Hnext in Hfresh.
  destruct (fresh_ids_app (actors (taken_off u w))
              [hat_actor (next_actor w) d pf u] (next_actor w) 1 Hfresh Hnd
              eq_refl) as [Hf Hn].
  split_and!.
  - intros v. unfold one_hat, hats_of. wsimpl. rewrite hat_ids_app.
    pose proof (Hone v) as Hv. unfold one_hat, hats_of in Hv. rewrite Hv.
    cbn [List.filter]. unfold attached_to at 1. cbn [hat_actor actor_like
      attachment userId].
    destruct (String.eqb_spec u v) as [->|Hne].
    + rewrite taken_off_entry, lookup_insert_eq. done.
    + rewrite lookup_insert_ne by done. apply app_nil_r.
  - unfold fresh_ids. wsimpl.
    by replace (S (next_actor w)) with (next_actor w + 1) by lia.
  - by wsimpl.
Qed.

Lemma hat_inv_dispatch e (w : World) : hat_inv w → hat_inv (dispatch w e).
Proof.
  intros Hinv. unfold dispatch. destruct e as [|hatId o|button user|user].
  - cbn [handler]. rewrite started_run. cbn [snd].
    apply resumed_hat_inv. by eapply hat_inv_ext.
  - cbn [handler]. rewrite settle_run. cbn [snd].
    destruct (existsb (is_pending hatId) (loads w)); [|done].
    apply resumed_hat_inv. eapply hat_inv_ext; [| | |exact Hinv];
      unfold settled_world; by destruct o.
  - cbn [handler]. unfold mbind, M_bind, gets.
    destruct (onClick w !! button) as [hatId|]; [|done].
    by apply wearHat_hat_inv.
  - by apply userLeft_hat_inv.
Qed.

Lemma hat_inv_run es db url : hat_inv (run es (constructed db url)).
Proof.
  induction es as [|e es IH] using rev_ind.
  - split_and!; [done | constructor | constructor].
  - rewrite run_app. by apply hat_inv_dispatch.
Qed.

Lemma hat_inv_call u c (w : World) : hat_inv w → hat_inv (call u c w).2.
Proof.
  destruct c as [hatId|]; [apply wearHat_hat_inv | apply userLeft_hat_inv].
Qed.

Lemma hat_inv_run_calls u cs (w : World) :
  hat_inv w → hat_inv (run_calls u cs w).
Proof.
  revert w. induction cs as [|c cs IH]; intros w Hinv; [done|].
  apply IH. by apply hat_inv_call.
Qed.

(** Either call first takes the user's hat off. *)
Lemma call_destroys u c a (w : World) :
  hat_inv w → attachedHats w !! u = Some a →
  live a w ∧ destroyed a (call u c w).2.
Proof.
  intros (Hone & Hfresh & Hnd) Ha.
  assert (live a w) as Hlive.
  { pose proof (Hone u) as Hu. unfold one_hat, hats_of in Hu.
    rewrite Ha in Hu. cbn [option_list option_rect] in Hu.
    assert (a ∈ actor_id <$> List.filter (attached_to u) (actors w)) as Hin
      by (rewrite Hu; by left).
    apply list_elem_of_fmap in Hin as (b & -> & Hb).
    apply list_elem_of_fmap_2, list_elem_of_In.
    apply list_elem_of_In, List.filter_In in Hb. tauto. }
  split; [done|].
  assert (a < next_actor w) as Hlt.
  { unfold live in Hlive. apply list_elem_of_fmap in Hlive as (b & -> & Hb).
    unfold fresh_ids in Hfresh. rewrite Forall_forall in Hfresh.
    by apply Hfresh. }
  pose proof (taken_off_destroys u a w Ha) as Hgone.
  destruct (taken_off_frame u w) as (_ & _ & Hnext).
  assert (destroyed a (taken_off u w)) as Hoff by (split; [by rewrite Hnext|done]).
  destruct c as [hatId|]; unfold call.
  - rewrite wearHat_cases.
    destruct (db_lookup hatId (HatDatabase w)) as [d|]; [|exact Hoff].
    destruct (truthy (resourceName d)); [|exact Hoff].
    destruct (prefabs w !! hatId) as [[pf|]|]; try exact Hoff.
    split; [cbn [snd]; wsimpl; lia|].
    unfold live. cbn [snd]. wsimpl. rewrite fmap_app.
    intros [Hin|Hin]%elem_of_app; [by apply Hgone|].
    apply list_elem_of_singleton in Hin. cbn [hat_actor actor_id] in Hin. lia.
  - rewrite userLeft_taken_off. exact Hoff.
Qed.

(** A destroyed actor is never in the context again. *)
Lemma destroyed_call u c a (w : World) :
  destroyed a w → destroyed a (call u c w).2.
Proof.
  intros [Hlt Hgone].
  assert (destroyed a (taken_off u w)) as [Hlt' Hgone'].
  { split; [by rewrite (proj2 (proj2 (taken_off_frame u w)))|].
    intros Hin. by apply Hgone, (taken_off_actors u). }
  assert (destroyed a (taken_off u w)) as Hoff by done.
  destruct c as [hatId|]; unfold call.
  - rewrite wearHat_cases.
    destruct (db_lookup hatId (HatDatabase w)) as [d|]; [|exact Hoff].
    destruct (truthy (resourceName d)); [|exact Hoff].
    destruct (prefabs w !! hatId) as [[pf|]|]; try exact Hoff.
    split; [cbn [snd]; wsimpl; lia|].
    unfold live. cbn [snd]. wsimpl. rewrite fmap_app.
    intros [Hin|Hin]%elem_of_app; [by apply Hgone'|].
    apply list_elem_of_singleton in Hin. cbn [hat_actor actor_id] in Hin. lia.
  - rewrite userLeft_taken_off. exact Hoff.
Qed.

Lemma destroyed_run_calls u cs a (w : World) :
  destroyed a w → destroyed a (run_calls u cs w).
Proof.
  revert w. induction cs as [|c cs IH]; intros w Hd; [done|].
  apply IH. by apply destroyed_call.
Qed.

(** C2 (at most one hat): in any session, at any point of any sequence of
    [wearHat] and [userLeft] calls for the user [u], the live actors attached
    to [u] are exactly the entry of [u] in [attachedHats], so there is at
    most one; the instance recorded at that point is destroyed by the next
    call whatever it is (any hat, the same hat, "none", a leave), stays
    destroyed through all later calls, and is never recorded again: whenever a
    later instance is recorded, the earlier ones are gone. *)
Theorem at_most_one_hat db url es u before c after :
  let w0 := run es (constructed db url) in
  let w1 := run_calls u before w0 in
  let w2 := (call u c w1).2 in
  let w3 := run_calls u after w2 in
  hats_of u w1 = option_list (attachedHats w1 !! u) ∧
  length (hats_of u w1) ≤ 1 ∧
  ∀ a, attachedHats w1 !! u = Some a →
    live a w1 ∧ ¬ live a w2 ∧ attachedHats w2 !! u ≠ Some a ∧
    ¬ live a w3 ∧ attachedHats w3 !! u ≠ Some a.
Proof.
  intros w0 w1 w2 w3.
  assert (hat_inv w1) as Hinv1 by apply hat_inv_run_calls, hat_inv_run.
  assert (hat_inv w2) as Hinv2 by by apply hat_inv_call.
  assert (hat_inv w3) as Hinv3 by by apply hat_inv_run_calls.
  assert (∀ w a, hat_inv w → attachedHats w !! u = Some a → live a w) as Hrec.
  { intros w a Hw Ha. by destruct (call_destroys u CallUserLeft a w Hw Ha). }
  pose proof (proj1 Hinv1 u) as Hone. unfold one_hat in Hone.
  split_and!.
  - done.
  - rewrite Hone. destruct (attachedHats w1 !! u); cbn; lia.
  - intros a Ha. destruct (call_destroys u c a w1 Hinv1 Ha) as [Hlive Hd].
    pose proof (destroyed_run_calls u after a _ Hd) as Hd3.
    split_and!.
    + done.
    + apply Hd.
    + intros Ha2. by apply Hd, Hrec.
    + apply Hd3.
    + intros Ha3. by apply Hd3, Hrec.
Qed.

End Proofs.

(** ** The properties at work on the concrete session *)

Lemma demo_keys_NoDup : NoDup (Object_keys demo_db).
Proof. apply (bool_decide_unpack _). vm_compute. exact I. Defined.

(** C1 (a hat whose load failed): in the session where the load of "tophat"
    failed, the descriptor names a resource and the prefab table has no entry
    for it.  Alice, wearing the cap (actor 8), clicks the button of "tophat"
    (actor 5): the read of [this.prefabs[hatId].id] throws a [TypeError] out
    of [wearHat] and of the click handler.  No hat is created and no entry is
    recorded, and the cap she wore has been destroyed. *)
Theorem wearHat_missing_prefab_throws :
  errors_logged demo_world_cap = [("app", "404")] ∧
  startup demo_world_cap = MenuShown ∧
  onClick demo_world_cap !! 5 = Some "tophat" ∧
  db_lookup "tophat" (HatDatabase demo_world_cap) = Some top_hat ∧
  truthy (resourceName top_hat) = true ∧
  prefabs demo_world_cap !! "tophat" = None ∧
  hats_of "alice" demo_world_cap = [8] ∧
  (wearHat "tophat" "alice" demo_world_cap).1 = Throw (TypeError "id") ∧
  (handler (Clicked 5 alice) demo_world_cap).1 = Throw (TypeError "id") ∧
  hats_of "alice" (wearHat "tophat" "alice" demo_world_cap).2 = [] ∧
  attachedHats (wearHat "tophat" "alice" demo_world_cap).2 !! "alice" = None ∧
  actor_id <$> actors (wearHat "tophat" "alice" demo_world_cap).2 =
    [0; 1; 2; 3; 4; 5; 6; 7].
Proof. split_and!; vm_compute; reflexivity. Qed.

Lemma userLeft_idempotent_witness :
  attachedHats demo_world_cap !! user_id bob = None ∧
  userLeft bob demo_world_cap = (Normal tt, demo_world_cap).
Proof.
  assert (attachedHats demo_world_cap !! user_id bob = None) as Hbob
    by (vm_compute; reflexivity).
  split; [exact Hbob|].
  exact (proj1 (proj2 (proj2 (userLeft_idempotent bob demo_world_cap))) Hbob).
Defined.

Lemma wearHat_none_clears_witness :
  attachedHats demo_world_cap !! "alice" = Some 8 ∧
  db_lookup "none" (HatDatabase demo_world_cap) = Some none_hat ∧
  truthy (resourceName none_hat) = false ∧
  ∃ w' : @World demo_math, wearHat "none" "alice" demo_world_cap = (Normal tt, w') ∧
    ¬ live 8 w' ∧ attachedHats w' !! "alice" = None.
Proof.
  assert (attachedHats demo_world_cap !! "alice" = Some 8) as Ha
    by (vm_compute; reflexivity).
  assert (db_lookup "none" (HatDatabase demo_world_cap) = Some none_hat) as Hd
    by (vm_compute; reflexivity).
  assert (truthy (resourceName none_hat) = false) as Hrn by reflexivity.
  split_and!; [exact Ha | exact Hd | exact Hrn |].
  destruct (wearHat_none_clears "none" "alice" 8 none_hat demo_world_cap
              Ha Hd Hrn) as (w' & Hrun & Hgone & Hentry & _).
  exists w'. split_and!; [exact Hrun | exact Hgone | exact Hentry].
Defined.

Lemma wearHat_attaches_witness :
  db_lookup "cap" (HatDatabase demo_world_cap) = Some cap_hat ∧
  truthy (resourceName cap_hat) = true ∧
  prefabs demo_world_cap !! "cap" =
    Some (Some {| asset_id := 41; asset_name := "cap";
                  prefab := Some PrefabDefinition; asset_box := None |}) ∧
  ∃ (w' : @World demo_math) (hat : @Actor demo_math), wearHat "cap" "bob" demo_world_cap = (Normal tt, w') ∧
    attachedHats w' !! "bob" = Some (actor_id hat) ∧
    actor_id hat = 9 ∧ actor_prefabId hat = Some 41.
Proof.
  assert (db_lookup "cap" (HatDatabase demo_world_cap) = Some cap_hat) as Hd
    by (vm_compute; reflexivity).
  assert (truthy (resourceName cap_hat) = true) as Hrn by reflexivity.
  assert (prefabs demo_world_cap !! "cap" =
            Some (Some {| asset_id := 41; asset_name := "cap";
                          prefab := Some PrefabDefinition;
                          asset_box := None |})) as Hpf
    by (vm_compute; reflexivity).
  split_and!; [exact Hd | exact Hrn | exact Hpf |].
  destruct (wearHat_attaches "cap" "bob" cap_hat _ demo_world_cap Hd Hrn Hpf)
    as (w' & hat & Hrun & _ & Hentry & Hid & Hprefab & _).
  exists w', hat. split_and!; [exact Hrun | exact Hentry | exact Hid | exact Hprefab].
Defined.

Lemma wearHat_unknown_hat_witness :
  ("fedora" ∉ Object_keys (HatDatabase demo_world_cap)) ∧
  ("fedora" ∉ Object_prototype_names) ∧
  wearHat "fedora" "alice" demo_world_cap =
    (Throw (TypeError "resourceName"), taken_off "alice" demo_world_cap) ∧
  attachedHats (taken_off "alice" demo_world_cap) !! "alice" = None.
Proof.
  assert ("fedora" ∉ Object_keys (HatDatabase demo_world_cap)) as Hk.
  { apply (bool_decide_unpack _). vm_compute. exact I. }
  assert ("fedora" ∉ Object_prototype_names) as Hn.
  { apply (bool_decide_unpack _). vm_compute. exact I. }
  split; [exact Hk|]. split; [exact Hn|].
  destruct (wearHat_unknown_hat "fedora" "alice" demo_world_cap Hk)
    as (Hthrow & _ & _ & Hentry & _).
  split; [exact (Hthrow Hn) | exact Hentry].
Defined.

(** Not every unknown hat raises an error: "toString" is not a key of the
    hat database, and [wearHat("toString", "alice")] returns normally
    (after destroying the cap that Alice wore, actor 8). *)
Lemma wearHat_inherited_name_returns :
  ("toString" ∉ Object_keys (HatDatabase demo_world_cap)) ∧
  (wearHat "toString" "alice" demo_world_cap).1 = Normal tt ∧
  (∀ e, (wearHat "toString" "alice" demo_world_cap).1 ≠ Throw e) ∧
  hats_of "alice" demo_world_cap = [8] ∧
  hats_of "alice" (wearHat "toString" "alice" demo_world_cap).2 = [] ∧
  attachedHats (wearHat "toString" "alice" demo_world_cap).2 !! "alice" = None.
Proof.
  assert ((wearHat "toString" "alice" demo_world_cap).1 = Normal tt) as Hret
    by (vm_compute; reflexivity).
  split_and!.
  - apply (bool_decide_unpack _). vm_compute. exact I.
  - exact Hret.
  - intros e He. rewrite Hret in He. discriminate He.
  - vm_compute. reflexivity.
  - vm_compute. reflexivity.
  - vm_compute. reflexivity.
Qed.

Lemma other_users_untouched_witness :
  "bob" ≠ "alice" ∧
  attachedHats (wearHat "cap" "alice" demo_world_cap).2 !! "bob" =
    attachedHats demo_world_cap !! "bob" ∧
  attachedHats (userLeft {| user_id := "alice" |} demo_world_cap).2 !! "bob" =
    attachedHats demo_world_cap !! "bob".
Proof.
  assert ("bob" ≠ "alice") as Hne by discriminate.
  split; [exact Hne|].
  destruct (other_users_untouched "cap" "alice" "bob" demo_world_cap Hne)
    as ((Hw & _) & (Hl & _)).
  split; [exact Hw | exact Hl].
Defined.

Lemma numbered_keys_NoDup : NoDup (fst <$> numbered_db).
Proof.
  apply (bool_decide_unpack _). vm_compute. exact I.
Defined.

Lemma showHatMenu_layout_witness :
  NoDup (fst <$> numbered_db) ∧
  HatDatabase numbered_constructed = own_properties numbered_db ∧
  Object_keys (HatDatabase numbered_constructed) !! 0 = Some "2" ∧
  ∃ (w' : @World demo_math) (created : list (@Actor demo_math)),
    showHatMenu numbered_constructed = (Normal tt, w') ∧
    length created = 8 ∧
    created !! 1 =
      Some {| actor_id := 1; actor_prefabId := None;
              actor_like :=
                {| parentId := Some 0; name := Some "2";
                   appearance_meshId := Some 0;
                   collider := Some ColliderAuto; text := None;
                   transform_local :=
                     {| t_position :=
                          Some {| v_x := 0; v_y := 0.3; v_z := 0 |};
                        t_rotation := None; t_scale := None |};
                   attachment := None |} |} ∧
    onClick w' !! 1 = Some "2".
Proof.
  assert (Object_keys (HatDatabase numbered_constructed) !! 0 = Some "2")
    as Hkey by (vm_compute; reflexivity).
  split; [exact numbered_keys_NoDup|]. split; [reflexivity|].
  split; [exact Hkey|].
  destruct (showHatMenu_layout numbered_db numbered_constructed
              numbered_keys_NoDup eq_refl)
    as (_ & _ & _ & w' & created & Hrun & _ & _ & Hlen & _ & Hentries & _).
  destruct (Hentries 0 "2" Hkey) as (d & _ & Hb & _ & Hc).
  exists w', created.
  split_and!; [exact Hrun | exact Hlen | exact Hb | exact Hc].
Defined.

(** The buttons of a catalog declared as [hat, 10, 2] are created in the
    order [2, 10, hat]: not in the declared key order. *)
Lemma showHatMenu_not_declared_order :
  NoDup (fst <$> numbered_db) ∧
  HatDatabase numbered_constructed = own_properties numbered_db ∧
  (showHatMenu numbered_constructed).1 = Normal tt ∧
  fst <$> numbered_db = ["hat"; "10"; "2"] ∧
  (λ b, name (actor_like b)) <$>
    List.filter is_button (actors (showHatMenu numbered_constructed).2) =
    [Some "2"; Some "10"; Some "hat"] ∧
  (λ b, name (actor_like b)) <$>
    List.filter is_button (actors (showHatMenu numbered_constructed).2) ≠
    Some <$> (fst <$> numbered_db).
Proof.
  assert ((λ b, name (actor_like b)) <$>
            List.filter is_button
              (actors (showHatMenu numbered_constructed).2) =
          [Some "2"; Some "10"; Some "hat"]) as Hnames
    by (vm_compute; reflexivity).
  split_and!.
  - exact numbered_keys_NoDup.
  - reflexivity.
  - vm_compute. reflexivity.
  - reflexivity.
  - exact Hnames.
  - rewrite Hnames. discriminate.
Qed.

Lemma preloadHats_outcomes_witness :
  NoDup (Object_keys (HatDatabase demo_started)) ∧
  load_pending "cap" demo_started ∧
  ∃ w' : @World demo_math,
    settle "cap" (Loaded cap_assets) demo_started = (Normal tt, w') ∧
    prefabs w' !! "cap" =
      Some (Some {| asset_id := 41; asset_name := "cap";
                    prefab := Some PrefabDefinition; asset_box := None |}).
Proof.
  assert (load_pending "cap" demo_started) as Hp.
  { exists {| load_hatId := "cap";
              load_url := Some "http://host/public/cap.glb";
              load_state := Pending |}.
    split; [|done]. apply (list_elem_of_lookup_2 _ 1). vm_compute. reflexivity. }
  split; [exact demo_keys_NoDup|]. split; [exact Hp|].
  destruct (proj2 (preloadHats_outcomes "cap" demo_started demo_keys_NoDup)
              Hp (Loaded cap_assets)) as (w' & Hrun & (Hfirst & _) & _).
  exists w'. split; [exact Hrun|].
  apply (Hfirst [ {| asset_id := 40; asset_name := "felt"; prefab := None;
                     asset_box := None |} ] _
                [ {| asset_id := 42; asset_name := "cap-lod";
                     prefab := Some PrefabDefinition; asset_box := None |} ]).
  - reflexivity.
  - repeat constructor.
  - discriminate.
Defined.


Lemma at_most_one_hat_witness :
  let w1 := run_calls "alice" []
              (run (demo_events ++ [Clicked 3 alice])
                 (constructed (H:=demo_math) demo_db "http://host/public")) in
  let w2 := (call "alice" (CallWearHat "cap") w1).2 in
  attachedHats w1 !! "alice" = Some 8 ∧
  live 8 w1 ∧ ¬ live 8 w2 ∧
  ¬ live 8 (run_calls "alice" [CallUserLeft; CallWearHat "cap"] w2).
Proof.
  intros w1 w2.
  assert (attachedHats w1 !! "alice" = Some 8) as Ha
    by (vm_compute; reflexivity).
  split; [exact Ha|].
  destruct (at_most_one_hat (H:=demo_math) demo_db "http://host/public"
              (demo_events ++ [Clicked 3 alice]) "alice" []
              (CallWearHat "cap") [CallUserLeft; CallWearHat "cap"])
    as (_ & _ & Hnext).
  destruct (Hnext 8 Ha) as (Hlive & Hgone & _ & Hlater & _).
  split_and!; [exact Hlive | exact Hgone | exact Hlater].
Defined.

(** * Further properties of the session *)

Section Session.
Context `{MREMath}.

Ltac wsimpl :=
  cbn beta iota zeta delta
    [fst snd HatDatabase baseUrl prefabs attachedHats actors next_actor assets
     next_asset onClick loads startup errors_logged set_prefabs
     set_attachedHats set_actors set_next_actor set_assets set_onClick
     set_loads set_startup set_errors_logged].

(** What each event leaves, handler by handler. *)
Lemma dispatch_cases e (w : World) :
  dispatch w e =
    match e with
    | SessionStarted =>
        resumed (set_startup AwaitingPreload
          (set_loads (λ _, load_of (baseUrl w) <$> enumerated (HatDatabase w)) w))
    | LoadSettled hatId o =>
        if existsb (is_pending hatId) (loads w)
        then resumed (settled_world hatId o w)
        else w
    | Clicked button user =>
        match onClick w !! button with
        | Some hatId => (wearHat hatId (user_id user) w).2
        | None => w
        end
    | UserLeft user => taken_off (user_id user) w
    end.
Proof.
  unfold dispatch. destruct e as [|hatId o|button user|user]; cbn [handler].
  - by rewrite started_run.
  - by rewrite settle_run.
  - unfold mbind, M_bind, gets. by destruct (onClick w !! button).
  - by rewrite userLeft_taken_off.
Qed.

Lemma run_snoc es e (w : World) : run (es ++ [e]) w = dispatch (run es w) e.
Proof. by rewrite run_app. Qed.

(** X1 (nothing happens before the start): the constructor only hooks the
    start and leave events, so until the session starts no event changes
    anything: loads cannot settle, no button exists to click, and a leaving
    user has no hat. *)
Theorem inert_before_start db url es :
  SessionStarted ∉ es →
  run es (constructed db url) = constructed db url.
Proof.
  induction es as [|e es IH] using rev_ind; intros Hes; [done|].
  apply not_elem_of_app in Hes as [Hes He].
  rewrite run_snoc, IH by done. rewrite dispatch_cases.
  destruct e as [|hatId o|button user|user].
  - destruct He. by left.
  - done.
  - cbn [constructed onClick]. by rewrite lookup_empty.
  - apply taken_off_absent. cbn [constructed attachedHats]. apply lookup_empty.
Qed.

Lemma wearHat_frame hatId u (w : World) :
  prefabs (wearHat hatId u w).2 = prefabs w ∧
  errors_logged (wearHat hatId u w).2 = errors_logged w ∧
  next_actor w ≤ next_actor (wearHat hatId u w).2.
Proof.
  rewrite wearHat_cases. unfold taken_off.
  destruct (db_lookup hatId (HatDatabase w)) as [d|];
    [destruct (truthy (resourceName d));
       [destruct (prefabs w !! hatId) as [[pf|]|]|]|];
    destruct (attachedHats w !! u); cbn [snd]; wsimpl;
    split_and!; (done || lia).
Qed.

Lemma taken_off_log u (w : World) :
  errors_logged (taken_off u w) = errors_logged w.
Proof. unfold taken_off. by destruct (attachedHats w !! u). Qed.

Lemma resumed_next (w : World) : next_actor w ≤ next_actor (resumed w).
Proof.
  unfold resumed. destruct (startup w); try done.
  destruct (Promise_all _); try done.
  unfold menu_world. wsimpl. lia.
Qed.

Lemma resumed_actors (w : World) a :
  a ∈ actor_id <$> actors (resumed w) →
  a ∈ actor_id <$> actors w ∨ next_actor w ≤ a.
Proof.
  unfold resumed. destruct (startup w); try (by left).
  destruct (Promise_all _); try (by left).
  unfold menu_world. wsimpl. rewrite fmap_app, menu_actors_seq.
  intros [Hin|Hin]%elem_of_app; [by left|].
  apply elem_of_seq in Hin. right. lia.
Qed.

(** An actor that was created and destroyed is never in the context again,
    whatever events follow. *)
Theorem destroyed_forever es a (w : World) :
  destroyed a w → destroyed a (run es w).
Proof.
  induction es as [|e es IH] using rev_ind; intros Hd; [done|].
  rewrite run_snoc. specialize (IH Hd). revert IH.
  generalize (run es w). clear Hd. intros w' [Hlt Hgone].
  rewrite dispatch_cases.
  assert (∀ u, destroyed a (taken_off u w')) as Hoff.
  { intros u. split; [by rewrite (proj2 (proj2 (taken_off_frame u w')))|].
    intros Hin. by apply Hgone, (taken_off_actors u). }
  destruct e as [|hatId o|button user|user].
  - split.
    + eapply Nat.lt_le_trans; [|apply resumed_next]. done.
    + intros Hin. apply resumed_actors in Hin as [Hin|Hin];
        [by apply Hgone | change (next_actor w' ≤ a) in Hin; lia].
  - destruct (existsb (is_pending hatId) (loads w')); [|done].
    assert (actors (settled_world hatId o w') = actors w' ∧
            next_actor (settled_world hatId o w') = next_actor w') as [Ha Hn]
      by (unfold settled_world; by destruct o).
    split.
    + eapply Nat.lt_le_trans; [|apply resumed_next]. by rewrite Hn.
    + intros Hin. apply resumed_actors in Hin as [Hin|Hin].
      * apply Hgone. unfold live. by rewrite <- Ha.
      * rewrite Hn in Hin. lia.
  - destruct (onClick w' !! button) as [hatId|]; [|done].
    by apply (destroyed_call (user_id user) (CallWearHat hatId)).
  - apply Hoff.
Qed.

Lemma db_lookup_elem key d (db : list (string * HatDescriptor)) :
  db_lookup key db = Some d → (key, d) ∈ db.
Proof.
  unfold db_lookup. induction db as [|[k d'] db IH]; cbn [List.find fst]; [done|].
  destruct (String.eqb_spec k key) as [->|Hne].
  - intros Heq. inversion Heq; subst. by left.
  - intros Hl. right. by apply IH.
Qed.

Lemma enumerated_elem (db : list (string * HatDescriptor)) k d :
  db_lookup k db = Some d → (k, d) ∈ enumerated db.
Proof.
  intros Hl. unfold enumerated.
  apply list_elem_of_fmap. exists (k, d). cbn [fst snd].
  rewrite Hl. split; [done|]. by apply db_lookup_elem.
Qed.

Lemma set_state_pending hatId s (l : Load) :
  load_state (set_state hatId s l) = Pending → s ≠ Pending →
  set_state hatId s l = l.
Proof.
  unfold set_state. destruct (is_pending hatId l); [|done].
  cbn [load_state]. by intros ->.
Qed.

Lemma settled_world_loads hatId o (w : World) :
  loads (settled_world hatId o w) = set_state hatId Fulfilled <$> loads w.
Proof. unfold settled_world. by destruct o. Qed.

Lemma settled_world_frame hatId o (w : World) :
  HatDatabase (settled_world hatId o w) = HatDatabase w ∧
  attachedHats (settled_world hatId o w) = attachedHats w ∧
  actors (settled_world hatId o w) = actors w ∧
  next_actor (settled_world hatId o w) = next_actor w ∧
  onClick (settled_world hatId o w) = onClick w ∧
  startup (settled_world hatId o w) = startup w.
Proof. unfold settled_world. by destruct o. Qed.

(** The promises that [preloadHats] leaves pending are those of hats that
    name a resource. *)
Lemma load_of_pending base (db : list (string * HatDescriptor)) l :
  l ∈ load_of base <$> enumerated db → load_state l = Pending →
  names_resource db (load_hatId l).
Proof.
  intros Hin Hp. apply list_elem_of_fmap in Hin as ([k d] & -> & Hkd).
  apply enumerated_lookup in Hkd. exists d.
  unfold load_of in Hp |- *. cbn [fst snd] in *.
  by destruct (truthy (resourceName d)).
Qed.

(** X5 (where prefabs come from): in any session, an entry of the prefab
    table under [hatId] exists only if [hatId] names a resource in the hat
    database and a load of [hatId] succeeded, and it holds what [find]
    returned on the assets of such a load. *)
Theorem prefabs_come_from_loads db url es hatId x :
  prefabs (run es (constructed db url)) !! hatId = Some x →
  names_resource db hatId ∧
  ∃ assets, LoadSettled hatId (Loaded assets) ∈ es ∧
    x = List.find prefab_not_null assets.
Proof.
  assert (∀ es, let w := run es (constructed db url) in
            HatDatabase w = db ∧
            (∀ l, l ∈ loads w → load_state l = Pending →
               names_resource db (load_hatId l)) ∧
            ∀ h y, prefabs w !! h = Some y →
              names_resource db h ∧
              ∃ assets, LoadSettled h (Loaded assets) ∈ es ∧
                y = List.find prefab_not_null assets) as Hinv.
  { clear es hatId x. induction es as [|e es IH] using rev_ind.
    - cbn. split_and!; [done | by intros l ?%elem_of_nil |].
      intros h y Hy. by rewrite lookup_empty in Hy.
    - cbn zeta in IH |- *. rewrite run_snoc.
      destruct IH as (Hdb & Hloads & Hpf).
      assert (∀ h y,
                prefabs (run es (constructed db url)) !! h = Some y →
                names_resource db h ∧
                ∃ assets, LoadSettled h (Loaded assets) ∈ es ++ [e] ∧
                  y = List.find prefab_not_null assets) as Hpf'.
      { intros h y Hy. destruct (Hpf h y Hy) as (Hn & assets & Hin & ->).
        split; [done|]. exists assets. split; [|done].
        apply elem_of_app. by left. }
      clear Hpf. revert Hdb Hloads Hpf'.
      generalize (run es (constructed db url)). intros w Hdb Hloads Hpf.
      rewrite dispatch_cases.
      destruct e as [|k o|button user|user].
      + destruct (resumed_frame (set_startup AwaitingPreload
          (set_loads (λ _, load_of (baseUrl w) <$> enumerated (HatDatabase w))
             w))) as (-> & -> & _ & -> & _).
        wsimpl. split_and!; [done | | done].
        rewrite Hdb. intros l. apply load_of_pending.
      + destruct (existsb (is_pending k) (loads w)) eqn:Hp; [|done].
        apply existsb_is_pending in Hp as (lk & Hlk & Hk & Hpend).
        destruct (resumed_frame (settled_world k o w))
          as (-> & -> & _ & -> & _).
        rewrite settled_world_loads.
        split_and!.
        * by rewrite (proj1 (settled_world_frame k o w)).
        * intros l Hl Hpl.
          apply list_elem_of_fmap in Hl as (l0 & -> & Hl0).
          rewrite set_state_pending in Hpl |- * by done.
          by apply Hloads.
        * intros h y. unfold settled_world. destruct o as [assets|err]; wsimpl.
          -- destruct (decide (h = k)) as [->|Hne].
             ++ rewrite lookup_insert_eq. intros [= <-].
                split; [rewrite <- Hk; by apply Hloads|].
                exists assets. split; [|done]. apply elem_of_app. right. by left.
             ++ rewrite lookup_insert_ne by done. apply Hpf.
          -- apply Hpf.
      + destruct (onClick w !! button) as [h0|]; [|done].
        destruct (wearHat_frame h0 (user_id user) w) as (-> & _).
        destruct (wearHat_session h0 (user_id user) w) as (-> & -> & _).
        done.
      + destruct (taken_off_frame (user_id user) w) as (-> & -> & _).
        replace (loads (taken_off (user_id user) w)) with (loads w); [done|].
        unfold taken_off. by destruct (attachedHats w !! user_id user). }
  intros Hx. by apply (Hinv es).
Qed.

(** X12 (what is logged): in any session, every call of [log.error] has the
    facility "app" and carries the error of a load that failed; so nothing
    is logged when no load fails, and clicks and leaves never log. *)
Theorem errors_logged_are_load_failures db url es :
  Forall (λ x, x.1 = "app" ∧ ∃ hatId, LoadSettled hatId (Failed x.2) ∈ es)
    (errors_logged (run es (constructed db url))).
Proof.
  induction es as [|e es IH] using rev_ind; [constructor|].
  rewrite run_snoc.
  assert (Forall (λ x, x.1 = "app" ∧
                       ∃ hatId, LoadSettled hatId (Failed x.2) ∈ es ++ [e])
            (errors_logged (run es (constructed db url)))) as IH'.
  { eapply Forall_impl; [exact IH|]. intros x (Hx & h & Hin).
    split; [done|]. exists h. apply elem_of_app. by left. }
  clear IH. revert IH'. generalize (run es (constructed db url)). intros w IH.
  rewrite dispatch_cases.
  destruct e as [|k o|button user|user].
  - by rewrite (proj2 (proj2 (proj2 (proj2 (resumed_frame _))))).
  - destruct (existsb (is_pending k) (loads w)); [|done].
    rewrite (proj2 (proj2 (proj2 (proj2 (resumed_frame _))))).
    unfold settled_world. destruct o as [assets|err]; wsimpl; [done|].
    apply Forall_app. split; [done|]. constructor; [|constructor].
    split; [done|]. exists k. apply elem_of_app. right. by left.
  - destruct (onClick w !! button) as [h0|]; [|done].
    by rewrite (proj1 (proj2 (wearHat_frame h0 (user_id user) w))).
  - by rewrite taken_off_log.
Qed.

(** ** When the menu appears *)


(** The world from which [started] resumes: the promises are made and the
    method waits. *)
Lemma dispatch_start (w : World) :
  dispatch w SessionStarted =
    resumed (set_startup AwaitingPreload
      (set_loads (λ _, load_of (baseUrl w) <$> enumerated (HatDatabase w)) w)).
Proof. by rewrite dispatch_cases. Qed.

Lemma resumed_waiting (w : World) :
  Forall not_rejected (loads w) → ¬ Forall fulfilled (loads w) →
  resumed w = w.
Proof.
  intros Hnr Hnf. unfold resumed. destruct (startup w); try done.
  by destruct (Promise_all_loads _ Hnr) as [[_ Hf]|[-> _]].
Qed.

Lemma load_pending_not_fulfilled hatId (w : World) :
  load_pending hatId w → ¬ Forall fulfilled (loads w).
Proof.
  intros (l & Hl & _ & Hp) Hf. rewrite Forall_forall in Hf.
  specialize (Hf l Hl). unfold fulfilled in Hf. congruence.
Qed.

Lemma start_load_pending db url hatId :
  names_resource db hatId →
  load_pending hatId
    (set_startup AwaitingPreload
       (set_loads (λ _, load_of url <$> enumerated db) (constructed db url))).
Proof.
  intros (d & Hd & Hrn). exists (load_of url (hatId, d)). wsimpl. split_and!.
  - apply list_elem_of_fmap_2. by apply enumerated_elem.
  - unfold load_of. cbn [fst snd]. by rewrite Hrn.
  - unfold load_of. cbn [fst snd]. by rewrite Hrn.
Qed.

Lemma start_not_rejected db url :
  Forall not_rejected (load_of url <$> enumerated db).
Proof.
  apply Forall_fmap, Forall_forall. intros kv _. apply load_of_not_rejected.
Qed.

(** X2 (starting with and without resources): when no entry of the hat
    database names a resource (in particular when it is empty), [started]
    builds the menu at once, without waiting for any event, and the prefab
    table stays empty; as soon as one entry names a resource, [started]
    creates nothing and waits, with that load pending. *)
Theorem started_builds_or_waits db url :
  let w0 := constructed db url in
  let w := run [SessionStarted] w0 in
  (Forall (λ kv, truthy (resourceName kv.2) = false) db →
     startup w = MenuShown ∧ actors w = menu_actors w0 ∧
     length (actors w) = 2 * length db + 2 ∧ prefabs w = ∅) ∧
  (∀ hatId, names_resource db hatId →
     startup w = AwaitingPreload ∧ actors w = [] ∧ onClick w = ∅ ∧
     load_pending hatId w).
Proof.
  intros w0 w. unfold w, run. cbn [foldl]. rewrite dispatch_start.
  change (baseUrl w0) with url. change (HatDatabase w0) with db. split.
  - intros Hnone.
    assert (Promise_all (load_state <$> (load_of url <$> enumerated db)) =
            Fulfilled) as Hall.
    { apply Promise_all_fulfilled, Forall_fmap, Forall_fmap, Forall_forall.
      intros [k d] Hkd. apply enumerated_lookup, db_lookup_elem in Hkd.
      rewrite Forall_forall in Hnone. specialize (Hnone (k, d) Hkd).
      unfold load_of. cbn [fst snd compose] in *. by rewrite Hnone. }
    unfold resumed. wsimpl. rewrite Hall. wsimpl. split_and!; try done.
    unfold menu_world. wsimpl.
    change (length (menu_actors w0) = 2 * length db + 2).
    rewrite <- (length_fmap actor_id), menu_actors_seq, length_seq. done.
  - intros hatId Hres.
    pose proof (start_load_pending db url hatId Hres) as Hp.
    rewrite resumed_waiting; [done | apply start_not_rejected |].
    by apply (load_pending_not_fulfilled hatId).
Qed.

(** While [started] waits with the load of [hatId] pending, nothing has been
    created and nothing is clickable. *)
Lemma waiting_step hatId e (w : World) :
  e ≠ SessionStarted → (∀ o, e ≠ LoadSettled hatId o) →
  startup w = AwaitingPreload ∧ onClick w = ∅ ∧ actors w = [] ∧
    attachedHats w = ∅ ∧ load_pending hatId w ∧ Forall not_rejected (loads w) →
  startup (dispatch w e) = AwaitingPreload ∧ onClick (dispatch w e) = ∅ ∧
    actors (dispatch w e) = [] ∧ attachedHats (dispatch w e) = ∅ ∧
    load_pending hatId (dispatch w e) ∧
    Forall not_rejected (loads (dispatch w e)).
Proof.
  intros He Hh (Hst & Hc & Ha & Ht & Hp & Hnr). rewrite dispatch_cases.
  destruct e as [|k o|button user|user]; [done| | |].
  - destruct (existsb (is_pending k) (loads w)); [|done].
    assert (k ≠ hatId) as Hk by (intros ->; by apply (Hh o)).
    destruct (settled_world_frame k o w) as (_ & Ht' & Ha' & _ & Hc' & Hst').
    assert (load_pending hatId (settled_world k o w)) as Hp'.
    { destruct Hp as (l & Hl & Hid & Hpend). exists l.
      rewrite settled_world_loads. split; [|done].
      apply list_elem_of_fmap. exists l. split; [|done].
      rewrite set_state_other; [done | congruence]. }
    assert (Forall not_rejected (loads (settled_world k o w))) as Hnr'.
    { rewrite settled_world_loads. apply Forall_fmap.
      eapply Forall_impl; [exact Hnr|]. intros l. apply set_state_not_rejected. }
    rewrite resumed_waiting;
      [| done | by apply (load_pending_not_fulfilled hatId)].
    split_and!; congruence.
  - by rewrite Hc, lookup_empty.
  - rewrite taken_off_absent; [done|]. by rewrite Ht, lookup_empty.
Qed.

(** X3 (a load that never settles): if the load of a hat that names a
    resource never settles, the menu is never built: whatever else happens,
    [started] keeps waiting, no actor exists, no button can be clicked and
    nobody wears a hat. *)
Theorem hung_load_delays_menu db url es hatId :
  names_resource db hatId →
  SessionStarted ∉ es →
  (∀ o, LoadSettled hatId o ∉ es) →
  let w := run (SessionStarted :: es) (constructed db url) in
  startup w = AwaitingPreload ∧ actors w = [] ∧ onClick w = ∅ ∧
  attachedHats w = ∅ ∧ load_pending hatId w.
Proof.
  intros Hres Hes Hh w.
  assert (startup w = AwaitingPreload ∧ onClick w = ∅ ∧ actors w = [] ∧
          attachedHats w = ∅ ∧ load_pending hatId w ∧
          Forall not_rejected (loads w)) as (? & ? & ? & ? & ? & _);
    [|done].
  unfold w. clear w. induction es as [|e es IH] using rev_ind.
  - unfold run. cbn [foldl]. rewrite dispatch_start.
    cbn [constructed baseUrl HatDatabase].
    pose proof (start_load_pending db url hatId Hres) as Hp.
    rewrite resumed_waiting;
      [| apply start_not_rejected | by apply (load_pending_not_fulfilled hatId)].
    split_and!; try done. apply start_not_rejected.
  - apply not_elem_of_app in Hes as [Hes He].
    rewrite app_comm_cons, run_snoc. apply waiting_step.
    + intros ->. apply He. by left.
    + intros o ->. apply (Hh o). apply elem_of_app. right. by left.
    + apply IH; [done|]. intros o Hin. apply (Hh o), elem_of_app. by left.
Qed.




(** ** Clicks *)

Lemma run_HatDatabase es (w : World) : HatDatabase (run es w) = HatDatabase w.
Proof.
  induction es as [|e es IH] using rev_ind; [done|].
  rewrite run_snoc. by rewrite (proj1 (dispatch_frame e (run es w))).
Qed.

Lemma menu_clicks_values keys a (m : gmap ActorId string) b h :
  menu_clicks keys a m !! b = Some h → h ∈ keys ∨ m !! b = Some h.
Proof.
  revert a m. induction keys as [|k keys IH]; intros a m Hb; [by right|].
  cbn [menu_clicks] in Hb. apply IH in Hb as [Hin|Hb]; [left; by right|].
  destruct (decide (a = b)) as [->|Hne].
  - rewrite lookup_insert_eq in Hb. inversion Hb; subst. left. by left.
  - rewrite lookup_insert_ne in Hb by done. by right.
Qed.

Lemma resumed_onClick (w : World) b h :
  onClick (resumed w) !! b = Some h →
  h ∈ Object_keys (HatDatabase w) ∨ onClick w !! b = Some h.
Proof.
  unfold resumed. destruct (startup w); try (by right).
  destruct (Promise_all _); try (by right).
  unfold menu_world. wsimpl. apply menu_clicks_values.
Qed.

Lemma onClick_keys db url es b h :
  onClick (run es (constructed db url)) !! b = Some h → h ∈ Object_keys db.
Proof.
  revert b h. induction es as [|e es IH] using rev_ind; intros b h.
  - cbn. by rewrite lookup_empty.
  - rewrite run_snoc.
    pose proof (run_HatDatabase es (constructed db url)) as Hdb.
    cbn [constructed HatDatabase] in Hdb.
    revert IH Hdb. generalize (run es (constructed db url)). intros w IH Hdb.
    rewrite dispatch_cases. destruct e as [|k o|button user|user].
    + intros [Hin|Hold]%resumed_onClick; [by rewrite <- Hdb | by eapply IH].
    + destruct (existsb (is_pending k) (loads w)); [|apply IH].
      intros [Hin|Hold]%resumed_onClick.
      * by rewrite (proj1 (settled_world_frame k o w)), Hdb in Hin.
      * rewrite (proj1 (proj2 (proj2 (proj2 (proj2
          (settled_world_frame k o w)))))) in Hold. by eapply IH.
    + destruct (onClick w !! button) as [h0|]; [|apply IH].
      rewrite (proj2 (proj2 (proj2 (wearHat_session h0 (user_id user) w)))).
      apply IH.
    + replace (onClick (taken_off (user_id user) w)) with (onClick w);
        [apply IH|].
      unfold taken_off. by destruct (attachedHats w !! user_id user).
Qed.

(** X6 (what a click can do): in any session, every click handler selects a
    key of the hat database.  So a click never fails on an unknown hat: it
    either returns normally, or throws at the read of the prefab's [id], and
    the latter only for a hat that names a resource and has no prefab. *)
Theorem clicks_select_known_hats db url es button hatId user :
  let w := run es (constructed db url) in
  onClick w !! button = Some hatId →
  hatId ∈ Object_keys db ∧
  ((handler (Clicked button user) w).1 = Normal tt ∨
   (handler (Clicked button user) w).1 = Throw (TypeError "id") ∧
     names_resource db hatId ∧ mjoin (prefabs w !! hatId) = None).
Proof.
  intros w Hb.
  pose proof (onClick_keys db url es button hatId Hb) as Hk.
  split; [done|].
  cbn [handler]. unfold mbind, M_bind, gets. rewrite Hb.
  rewrite wearHat_cases.
  pose proof (run_HatDatabase es (constructed db url)) as Hdb.
  cbn [constructed HatDatabase] in Hdb. fold w in Hdb. rewrite Hdb.
  destruct (db_lookup hatId db) as [d|] eqn:Hd;
    [|by apply db_lookup_None in Hd].
  destruct (truthy (resourceName d)) eqn:Hrn; [|by left].
  destruct (prefabs w !! hatId) as [[pf|]|]; [by left | |];
    right; (split_and!; [done | by exists d | done]).
Qed.

(** ** What is destroyed *)

Lemma NoDup_fmap_eq {A B} (f : A → B) (l : list A) x y :
  NoDup (f <$> l) → x ∈ l → y ∈ l → f x = f y → x = y.
Proof.
  induction l as [|z l IH]; [by intros _ ?%elem_of_nil|].
  rewrite fmap_cons, NoDup_cons. intros [Hz Hnd] Hx Hy Hf.
  apply elem_of_cons in Hx as [->|Hx]; apply elem_of_cons in Hy as [->|Hy].
  - done.
  - destruct Hz. rewrite Hf. by apply list_elem_of_fmap_2.
  - destruct Hz. rewrite <- Hf. by apply list_elem_of_fmap_2.
  - by apply IH.
Qed.

(** Taking a user's hat off removes no actor that is not attached. *)
Lemma taken_off_keeps_unattached u (w : World) b :
  hat_inv w → b ∈ actors w → attachment (actor_like b) = None →
  b ∈ actors (taken_off u w).
Proof.
  intros (Hone & _ & Hnd) Hb Hun. unfold taken_off.
  destruct (attachedHats w !! u) as [a|] eqn:Hu; wsimpl; [|done].
  apply list_elem_of_filter. split; [|done]. intros Hid.
  pose proof (Hone u) as Hou. unfold one_hat, hats_of in Hou.
  rewrite Hu in Hou. cbn [option_list option_rect] in Hou.
  assert (a ∈ actor_id <$> List.filter (attached_to u) (actors w)) as Hin
    by (rewrite Hou; by left).
  apply list_elem_of_fmap in Hin as (b' & Hid' & Hb').
  apply list_elem_of_In, List.filter_In in Hb' as [Hb' Hatt].
  apply list_elem_of_In in Hb'.
  assert (b = b') as <- by (apply (NoDup_fmap_eq actor_id (actors w));
                            [done | done | done | congruence]).
  unfold attached_to in Hatt. by rewrite Hun in Hatt.
Qed.

Lemma dispatch_keeps_unattached e (w : World) b :
  hat_inv w → b ∈ actors w → attachment (actor_like b) = None →
  b ∈ actors (dispatch w e).
Proof.
  intros Hinv Hb Hun. rewrite dispatch_cases.
  assert (∀ w', b ∈ actors w' → b ∈ actors (resumed w')) as Hres.
  { intros w' Hb'. unfold resumed. destruct (startup w'); try done.
    destruct (Promise_all _); try done.
    unfold menu_world. wsimpl. apply elem_of_app. by left. }
  destruct e as [|k o|button user|user].
  - by apply Hres.
  - destruct (existsb (is_pending k) (loads w)); [|done].
    apply Hres. by rewrite (proj1 (proj2 (proj2 (settled_world_frame k o w)))).
  - destruct (onClick w !! button) as [h0|]; [|done].
    pose proof (taken_off_keeps_unattached (user_id user) w b Hinv Hb Hun).
    rewrite wearHat_cases.
    destruct (db_lookup h0 (HatDatabase w)) as [d|]; [|done].
    destruct (truthy (resourceName d)); [|done].
    destruct (prefabs w !! h0) as [[pf|]|]; try done.
    cbn [snd]. wsimpl. apply elem_of_app. by left.
  - by apply taken_off_keeps_unattached.
Qed.

(** X8 (the menu is never destroyed): in any session, an actor that is not
    attached to a user (the container, a button, a label, the title) stays
    in the context through every later event: the only actors that are ever
    destroyed are hats. *)
Theorem unattached_actors_stay db url es es' b :
  let w := run es (constructed db url) in
  b ∈ actors w → attachment (actor_like b) = None →
  b ∈ actors (run es' w).
Proof.
  intros w Hb Hun. induction es' as [|e es' IH] using rev_ind; [done|].
  rewrite run_snoc. apply dispatch_keeps_unattached; [|done|done].
  unfold w. rewrite <- run_app. apply hat_inv_run.
Qed.

Lemma wearHat_table_other hatId u v (w : World) :
  v ≠ u → attachedHats (wearHat hatId u w).2 !! v = attachedHats w !! v.
Proof.
  intros Hne. pose proof (taken_off_other u v w Hne) as Hv.
  rewrite wearHat_cases.
  destruct (db_lookup hatId (HatDatabase w)) as [d|]; [|done].
  destruct (truthy (resourceName d)); [|done].
  destruct (prefabs w !! hatId) as [[pf|]|]; try done.
  cbn [snd]. wsimpl. by rewrite lookup_insert_ne.
Qed.

(** X9 (other users keep their hats): in any session, [wearHat] and
    [userLeft] for the user [u] leave the live hat of every other user in
    the context, whichever path they take. *)
Theorem other_users_keep_hats db url es hatId u v :
  let w := run es (constructed db url) in
  v ≠ u →
  hats_of v (wearHat hatId u w).2 = hats_of v w ∧
  hats_of v (userLeft {| user_id := u |} w).2 = hats_of v w.
Proof.
  intros w Hne.
  pose proof (hat_inv_run es db url) as Hinv. fold w in Hinv.
  pose proof (proj1 Hinv v) as Hv. unfold one_hat in Hv.
  split.
  - pose proof (proj1 (wearHat_hat_inv hatId u w Hinv) v) as Hv'.
    unfold one_hat in Hv'. by rewrite Hv', Hv, wearHat_table_other.
  - pose proof (proj1 (userLeft_hat_inv {| user_id := u |} w Hinv) v) as Hv'.
    unfold one_hat in Hv'. rewrite Hv', Hv, userLeft_taken_off.
    cbn [snd user_id]. by rewrite taken_off_other.
Qed.

(** ** Sessions without failed loads *)

Lemma prefabs_ready_ext db (w w' : World) :
  HatDatabase w' = HatDatabase w → loads w' = loads w →
  startup w' = startup w → onClick w' = onClick w → prefabs w' = prefabs w →
  prefabs_ready db w → prefabs_ready db w'.
Proof. unfold prefabs_ready. by intros -> -> -> -> ->. Qed.

Lemma prefabs_ready_resumed db (w : World) :
  prefabs_ready db w → prefabs_ready db (resumed w).
Proof.
  intros Hinv. pose proof Hinv as (Hdb & Hc & Hl & Hk). unfold resumed.
  destruct (startup w) eqn:Hst; try exact Hinv.
  destruct (Promise_all _) eqn:Hall; try exact Hinv.
  - apply Promise_all_fulfilled, Forall_fmap in Hall.
    rewrite Forall_forall in Hall. specialize (Hk eq_refl).
    unfold menu_world. split_and!; wsimpl; try done.
    intros b h Hb. rewrite Hdb in Hb.
    apply menu_clicks_values in Hb as [Hin|Hb]; [|by apply (Hc b)].
    split; [done|]. intros Hres.
    rewrite <- Hk in Hin. apply list_elem_of_fmap in Hin as (l & -> & Hin).
    apply Hl; [done | | done].
    specialize (Hall l Hin). cbn [compose] in Hall. by rewrite Hall.
  - by split_and!.
Qed.

Lemma prefabs_ready_dispatch db e (w : World) :
  good_event e → prefabs_ready db w → prefabs_ready db (dispatch w e).
Proof.
  intros Hgood (Hdb & Hc & Hl & Hk). rewrite dispatch_cases.
  destruct e as [|k o|button user|user].
  - apply prefabs_ready_resumed. split_and!; wsimpl; try done.
    + rewrite Hdb. intros l Hin Hs (d & Hd & Hrn).
      apply list_elem_of_fmap in Hin as ([k0 d0] & -> & Hkd).
      apply enumerated_lookup in Hkd.
      unfold load_of in Hs, Hd. cbn [fst snd] in *.
      destruct (truthy (resourceName d0)) eqn:Hrn0; [done|].
      cbn [load_hatId] in Hd. congruence.
    + intros _. by rewrite load_of_hatId, enumerated_keys, Hdb.
  - destruct (existsb (is_pending k) (loads w)); [|done].
    apply prefabs_ready_resumed.
    destruct (settled_world_frame k o w) as (Hdb' & _ & _ & _ & Hc' & Hst').
    destruct o as [assets|err]; [|done]. cbn [good_event] in Hgood.
    destruct (List.find prefab_not_null assets) as [pf|] eqn:Hfind; [|done].
    assert (∀ h, (∃ pf0, prefabs w !! h = Some (Some pf0)) ∨ h = k →
              ∃ pf0, prefabs (settled_world k (Loaded assets) w) !! h =
                       Some (Some pf0)) as Hpf.
    { intros h Hh. unfold settled_world. wsimpl. rewrite Hfind.
      destruct (decide (h = k)) as [->|Hne].
      - exists pf. apply lookup_insert_eq.
      - rewrite lookup_insert_ne by done. by destruct Hh. }
    split_and!.
    + congruence.
    + intros b h Hb. rewrite Hc' in Hb. destruct (Hc b h Hb) as [Hin Hres].
      split; [done|]. intros Hn. apply Hpf. left. by apply Hres.
    + intros l Hin Hs Hres. rewrite settled_world_loads in Hin.
      apply list_elem_of_fmap in Hin as (l0 & -> & Hin).
      rewrite set_state_hatId in Hres |- *. apply Hpf.
      unfold set_state in Hs.
      destruct (is_pending k l0) eqn:Hp.
      * right. by apply is_pending_spec in Hp as [? _].
      * left. by apply Hl.
    + rewrite Hst', settled_world_loads. intros Hs.
      rewrite <- (Hk Hs), <- list_fmap_compose. apply list_fmap_ext.
      intros i l _. apply set_state_hatId.
  - destruct (onClick w !! button) as [h0|]; [|done].
    destruct (wearHat_session h0 (user_id user) w) as (? & ? & ? & ?).
    apply (prefabs_ready_ext db w); try done. apply wearHat_frame.
  - apply (prefabs_ready_ext db w); try done;
      unfold taken_off; by destruct (attachedHats w !! user_id user).
Qed.

Lemma prefabs_ready_run db url es :
  Forall good_event es → prefabs_ready db (run es (constructed db url)).
Proof.
  induction es as [|e es IH] using rev_ind; intros Hgood.
  - split_and!; try done.
    by intros l ?%elem_of_nil.
  - apply Forall_app in Hgood as [Hes He].
    rewrite run_snoc. apply prefabs_ready_dispatch; [|by apply IH].
    by inversion He.
Qed.

(** X7 (no failed load, no exception): in a session where every load that
    settles succeeds and yields a prefab, no handler ever throws: every
    start, settlement, click and leave returns normally.  The only source of
    exceptions in a session is a hat whose load failed or held no prefab. *)
Theorem healthy_session_never_throws db url es e :
  Forall good_event (es ++ [e]) →
  (handler e (run es (constructed db url))).1 = Normal tt.
Proof.
  intros Hgood. apply Forall_app in Hgood as [Hes _].
  destruct (prefabs_ready_run db url es Hes) as (Hdb & Hc & _).
  revert Hdb Hc. generalize (run es (constructed db url)). intros w Hdb Hc.
  destruct e as [|k o|button user|user]; cbn [handler].
  - by rewrite started_run.
  - by rewrite settle_run.
  - unfold mbind, M_bind, gets.
    destruct (onClick w !! button) as [h|] eqn:Hb; [|done].
    destruct (Hc button h Hb) as [Hin Hres].
    rewrite wearHat_cases, Hdb.
    destruct (db_lookup h db) as [d|] eqn:Hd;
      [|by apply db_lookup_None in Hd].
    destruct (truthy (resourceName d)) eqn:Hrn; [|done].
    destruct Hres as [pf Hpf]; [by exists d|]. by rewrite Hpf.
  - by rewrite userLeft_taken_off.
Qed.

(** ** Wearing again, and leaving *)

Lemma filter_out_fresh n (l : list Actor) :
  Forall (λ a, actor_id a < n) l → filter (λ b, actor_id b ≠ n) l = l.
Proof.
  induction 1 as [|a l Ha _ IH]; [done|].
  rewrite filter_cons_True by lia. by rewrite IH.
Qed.

Lemma taken_off_fresh u (w : World) :
  fresh_ids w → Forall (λ a, actor_id a < next_actor w) (actors (taken_off u w)).
Proof.
  unfold fresh_ids, taken_off. intros Hf.
  destruct (attachedHats w !! u); wsimpl; [|done].
  rewrite Forall_forall in Hf |- *.
  intros b [_ Hb]%list_elem_of_filter. by apply Hf.
Qed.

Lemma taken_off_present u a (w : World) :
  attachedHats w !! u = Some a →
  taken_off u w =
    set_attachedHats (delete u) (set_actors (filter (λ b, actor_id b ≠ a)) w).
Proof. intros Ha. unfold taken_off. by rewrite Ha. Qed.

(** Leaving right after a call of [wearHat] undoes what the call added. *)
Lemma taken_off_after_wearHat hatId u (w : World) :
  fresh_ids w →
  actors (taken_off u (wearHat hatId u w).2) = actors (taken_off u w) ∧
  attachedHats (taken_off u (wearHat hatId u w).2) =
    attachedHats (taken_off u w).
Proof.
  intros Hf. pose proof (taken_off_fresh u w Hf) as Hoff.
  assert (taken_off u (taken_off u w) = taken_off u w) as Hidem
    by apply taken_off_absent, taken_off_entry.
  rewrite wearHat_cases.
  destruct (db_lookup hatId (HatDatabase w)) as [d|];
    [|cbn [snd]; by rewrite Hidem].
  destruct (truthy (resourceName d)); [|cbn [snd]; by rewrite Hidem].
  destruct (prefabs w !! hatId) as [[pf|]|];
    try (cbn [snd]; by rewrite Hidem).
  cbn [snd].
  rewrite (taken_off_present u (next_actor w))
    by (wsimpl; apply lookup_insert_eq).
  wsimpl. split.
  - rewrite filter_app, filter_out_fresh by done.
    rewrite filter_cons_False, filter_nil by (cbn; lia).
    apply app_nil_r.
  - apply map_eq. intros k. destruct (decide (k = u)) as [->|Hne].
    + by rewrite lookup_delete_eq, taken_off_entry.
    + by rewrite lookup_delete_ne, lookup_insert_ne.
Qed.

(** X11 (wearing then leaving): in any session, when a user selects a hat
    and then leaves, the context holds the same actors and the table the
    same entries as if the user had left right away, whichever path
    [wearHat] took; the hat that was created is destroyed, and only its
    handle is used up. *)
Theorem leaving_undoes_wearing db url es hatId u :
  let w := run es (constructed db url) in
  let left := (userLeft {| user_id := u |} w).2 in
  let worn_left :=
    (userLeft {| user_id := u |} (wearHat hatId u w).2).2 in
  actors worn_left = actors left ∧
  attachedHats worn_left = attachedHats left ∧
  hats_of u worn_left = [] ∧
  next_actor left ≤ next_actor worn_left ≤ S (next_actor left).
Proof.
  intros w left worn_left. unfold left, worn_left.
  rewrite !userLeft_taken_off. cbn [snd user_id].
  destruct (hat_inv_run es db url) as (_ & Hf & _). fold w in Hf.
  destruct (taken_off_after_wearHat hatId u w Hf) as [Ha Ht].
  split_and!; try done.
  - pose proof (hat_inv_run es db url) as Hinv. fold w in Hinv.
    apply (wearHat_hat_inv hatId u) in Hinv.
    apply (taken_off_hat_inv u) in Hinv.
    rewrite (proj1 Hinv u), taken_off_entry. done.
  - rewrite !(proj2 (proj2 (taken_off_frame u _))).
    apply wearHat_frame.
  - rewrite !(proj2 (proj2 (taken_off_frame u _))).
    rewrite wearHat_cases.
    destruct (db_lookup hatId (HatDatabase w)) as [d|];
      [|cbn [snd]; rewrite (proj2 (proj2 (taken_off_frame u w))); lia].
    destruct (truthy (resourceName d));
      [|cbn [snd]; rewrite (proj2 (proj2 (taken_off_frame u w))); lia].
    destruct (prefabs w !! hatId) as [[pf|]|]; cbn [snd]; wsimpl;
      try rewrite (proj2 (proj2 (taken_off_frame u w))); lia.
Qed.

(** X10 (selecting the same hat again): in any session, when a user selects
    twice in a row a hat that has its prefab, the first instance is
    destroyed and a second one with the next handle and the same description
    is created and recorded: the context ends as after one selection, with
    the new instance in place of the first. *)
Theorem reselecting_replaces_instance db url es hatId u d pf :
  let w := run es (constructed db url) in
  db_lookup hatId db = Some d →
  truthy (resourceName d) = true →
  prefabs w !! hatId = Some (Some pf) →
  let n := next_actor w in
  let w1 := (wearHat hatId u w).2 in
  let w2 := (wearHat hatId u w1).2 in
  attachedHats w1 !! u = Some n ∧
  actors w1 = actors (taken_off u w) ++ [hat_actor n d pf u] ∧
  (wearHat hatId u w1).1 = Normal tt ∧
  attachedHats w2 !! u = Some (S n) ∧
  actors w2 = actors (taken_off u w) ++ [hat_actor (S n) d pf u] ∧
  ¬ live n w2.
Proof.
  intros w Hd Hrn Hpf n w1 w2.
  pose proof (run_HatDatabase es (constructed db url)) as Hdb.
  cbn [constructed HatDatabase] in Hdb. fold w in Hdb.
  destruct (hat_inv_run es db url) as (_ & Hf & _). fold w in Hf.
  assert (wearHat hatId u w =
          (Normal tt,
           set_attachedHats <[u := n]>
             (set_next_actor (S n)
                (set_actors (λ l, l ++ [hat_actor n d pf u])
                   (taken_off u w))))) as Hw1
    by (by rewrite wearHat_cases, Hdb, Hd, Hrn, Hpf).
  assert (attachedHats w1 !! u = Some n) as Ht1
    by (unfold w1; rewrite Hw1; cbn [snd]; wsimpl; apply lookup_insert_eq).
  assert (actors w1 = actors (taken_off u w) ++ [hat_actor n d pf u]) as Ha1
    by (unfold w1; by rewrite Hw1).
  assert (HatDatabase w1 = db ∧ prefabs w1 = prefabs w ∧ next_actor w1 = S n)
    as (Hdb1 & Hpf1 & Hn1).
  { unfold w1. rewrite Hw1. cbn [snd]. wsimpl.
    destruct (taken_off_frame u w) as (-> & -> & _). done. }
  assert (actors (taken_off u w1) = actors (taken_off u w)) as Hoff.
  { apply (taken_off_after_wearHat hatId u w Hf). }
  assert (wearHat hatId u w1 =
          (Normal tt,
           set_attachedHats <[u := S n]>
             (set_next_actor (S (S n))
                (set_actors (λ l, l ++ [hat_actor (S n) d pf u])
                   (taken_off u w1))))) as Hw2
    by (by rewrite wearHat_cases, Hdb1, Hd, Hrn, Hpf1, Hpf, Hn1).
  split_and!; try done.
  - by rewrite Hw2.
  - unfold w2. rewrite Hw2. cbn [snd]. wsimpl. apply lookup_insert_eq.
  - unfold w2. rewrite Hw2. cbn [snd]. wsimpl. by rewrite Hoff.
  - unfold w2, live. rewrite Hw2. cbn [snd]. wsimpl. rewrite Hoff, fmap_app.
    intros [Hin|Hin]%elem_of_app.
    + pose proof (taken_off_fresh u w Hf) as Hfr.
      apply list_elem_of_fmap in Hin as (b & Hb & Hin).
      rewrite Forall_forall in Hfr. specialize (Hfr b Hin). unfold n in Hb. lia.
    + apply list_elem_of_singleton in Hin. cbn [hat_actor actor_id] in Hin. lia.
Qed.

(** ** The menu is built once *)

Lemma filter_unattached_all (l : list Actor) :
  Forall (λ b, attachment (actor_like b) = None) l →
  List.filter unattached l = l.
Proof.
  induction 1 as [|b l Hb _ IH]; [done|].
  cbn [List.filter]. unfold unattached at 1. by rewrite Hb, IH.
Qed.

Lemma filter_unattached_out a (l : list Actor) :
  (∀ b, b ∈ l → actor_id b = a → unattached b = false) →
  List.filter unattached (filter (λ b, actor_id b ≠ a) l) =
  List.filter unattached l.
Proof.
  induction l as [|b l IH]; intros Hatt; [done|].
  rewrite filter_cons. cbn [List.filter].
  assert (List.filter unattached (filter (λ b, actor_id b ≠ a) l) =
          List.filter unattached l) as IH'.
  { apply IH. intros b' Hb'. apply Hatt. by right. }
  destruct (decide (actor_id b ≠ a)) as [Hne|Heq].
  - cbn [List.filter]. by rewrite IH'.
  - rewrite (Hatt b); [done | by left |].
    by destruct (decide (actor_id b = a)).
Qed.

Lemma taken_off_unattached u (w : World) :
  hat_inv w →
  List.filter unattached (actors (taken_off u w)) =
  List.filter unattached (actors w).
Proof.
  intros Hinv.
  destruct (attachedHats w !! u) as [a|] eqn:Hu;
    [|by rewrite taken_off_absent].
  rewrite (taken_off_present u a) by done. wsimpl.
  apply filter_unattached_out. intros b Hb Hid.
  unfold unattached.
  destruct (attachment (actor_like b)) as [att|] eqn:Hatt; [done|].
  pose proof (taken_off_keeps_unattached u w b Hinv Hb Hatt) as Hin.
  rewrite (taken_off_present u a) in Hin by done. wsimpl.
  by apply list_elem_of_filter in Hin as [Hne _].
Qed.

Lemma wearHat_unattached hatId u (w : World) :
  hat_inv w →
  List.filter unattached (actors (wearHat hatId u w).2) =
  List.filter unattached (actors w).
Proof.
  intros Hinv. pose proof (taken_off_unattached u w Hinv) as Hoff.
  rewrite wearHat_cases.
  destruct (db_lookup hatId (HatDatabase w)) as [d|]; [|done].
  destruct (truthy (resourceName d)); [|done].
  destruct (prefabs w !! hatId) as [[pf|]|]; try done.
  cbn [snd]. wsimpl. rewrite List.filter_app, Hoff.
  cbn [List.filter]. apply app_nil_r.
Qed.

(** Resuming [started] from a world where nothing exists yet either keeps
    waiting or builds the menu of the constructed application. *)
Lemma menu_state_resumed db url (w : World) :
  startup w = AwaitingPreload →
  actors w = [] → attachedHats w = ∅ → onClick w = ∅ →
  next_actor w = 0 → next_asset w = 0 → HatDatabase w = db →
  menu_state db url (resumed w).
Proof.
  intros Hst Ha Ht Hc Hn Hm Hdb. unfold resumed. rewrite Hst.
  destruct (Promise_all _).
  - unfold menu_state. by rewrite Hst.
  - unfold menu_state, menu_world. wsimpl. rewrite Ha. cbn [app].
    rewrite filter_unattached_all by apply menu_actors_unattached.
    unfold menu_actors, button_mesh. by rewrite Hn, Hm, Hdb.
  - done.
Qed.

Lemma menu_state_dispatch db url e (w : World) :
  e ≠ SessionStarted → hat_inv w →
  menu_state db url w → menu_state db url (dispatch w e).
Proof.
  intros He Hinv Hm. rewrite dispatch_cases.
  destruct e as [|k o|button user|user]; [done| | |].
  - destruct (existsb (is_pending k) (loads w)); [|done].
    destruct (settled_world_frame k o w) as (Hdb & Ht & Ha & Hn & Hc & Hs).
    assert (next_asset (settled_world k o w) = next_asset w) as Hasset
      by (unfold settled_world; by destruct o).
    unfold menu_state in Hm.
    destruct (startup w) eqn:Hst.
    + unfold resumed. rewrite Hs. unfold menu_state. by rewrite Hs.
    + destruct Hm as (? & ? & ? & ? & ? & ?).
      apply menu_state_resumed; congruence.
    + unfold resumed. rewrite Hs. unfold menu_state. by rewrite Hs, Ha.
    + unfold resumed. rewrite Hs. unfold menu_state. by rewrite Hs.
  - destruct (onClick w !! button) as [h0|] eqn:Hb; [|done].
    destruct (wearHat_session h0 (user_id user) w) as (_ & _ & Hs & Hc).
    unfold menu_state in Hm |- *. rewrite Hs.
    destruct (startup w); try done.
    + destruct Hm as (_ & _ & Hc' & _).
      by rewrite Hc', lookup_empty in Hb.
    + by rewrite wearHat_unattached.
  - unfold menu_state in Hm |- *.
    replace (startup (taken_off (user_id user) w)) with (startup w)
      by (unfold taken_off; by destruct (attachedHats w !! user_id user)).
    destruct (startup w); try done.
    + pose proof Hm as (_ & Ht & _).
      rewrite taken_off_absent; [done|]. by rewrite Ht, lookup_empty.
    + by rewrite taken_off_unattached.
Qed.






(** X13 (the menu is built once): in a session, while [started] waits the
    context is empty; once the menu is shown, and whatever clicks, leaves and
    late settlements follow, the actors of the context that are not hats are
    exactly the [2 * N + 2] actors that [showHatMenu] built from the
    constructed application, in the same order: the menu is built once,
    never rebuilt and never altered. *)
Theorem menu_built_once db url es :
  SessionStarted ∉ es →
  let w := run (SessionStarted :: es) (constructed db url) in
  (startup w = AwaitingPreload → actors w = []) ∧
  (startup w = MenuShown →
     List.filter unattached (actors w) = menu_actors (constructed db url) ∧
     length (List.filter unattached (actors w)) = 2 * length db + 2).
Proof.
  intros Hes w.
  assert (menu_state db url w) as Hm.
  { unfold w. clear w. induction es as [|e es IH] using rev_ind.
    - unfold run. cbn [foldl]. rewrite dispatch_start.
      by apply menu_state_resumed.
    - apply not_elem_of_app in Hes as [Hes He].
      rewrite app_comm_cons, run_snoc. apply menu_state_dispatch.
      + intros ->. apply He. by left.
      + apply hat_inv_run.
      + by apply IH. }
  unfold menu_state in Hm. split.
  - intros Hst. rewrite Hst in Hm. by destruct Hm.
  - intros Hst. rewrite Hst in Hm. split; [done|].
    rewrite Hm, <- (length_fmap actor_id), menu_actors_seq, length_seq. done.
Qed.

End Session.

(** ** The further properties on the concrete session *)


Lemma inert_before_start_witness :
  (SessionStarted ∉ [Clicked 3 alice; UserLeft bob;
                     LoadSettled "cap" (Loaded cap_assets)]) ∧
  run [Clicked 3 alice; UserLeft bob; LoadSettled "cap" (Loaded cap_assets)]
    (constructed (H:=demo_math) demo_db "http://host/public") =
  constructed demo_db "http://host/public".
Proof.
  assert (SessionStarted ∉ [Clicked 3 alice; UserLeft bob;
                            LoadSettled "cap" (Loaded cap_assets)]) as Hes.
  { intros Hin. repeat (apply elem_of_cons in Hin as [Hin|Hin];
                        [discriminate Hin|]).
    by apply elem_of_nil in Hin. }
  split; [exact Hes|].
  exact (inert_before_start (H:=demo_math) demo_db "http://host/public" _ Hes).
Defined.

Lemma started_builds_or_waits_witness :
  names_resource demo_db "cap" ∧
  startup (run [SessionStarted]
             (constructed (H:=demo_math) demo_db "http://host/public")) =
    AwaitingPreload ∧
  actors (run [SessionStarted]
            (constructed (H:=demo_math) demo_db "http://host/public")) = [].
Proof.
  assert (names_resource demo_db "cap") as Hres by (by exists cap_hat).
  split; [exact Hres|].
  destruct (proj2 (started_builds_or_waits (H:=demo_math) demo_db
                     "http://host/public") "cap" Hres) as (Hst & Ha & _).
  split; [exact Hst | exact Ha].
Defined.

Lemma hung_load_delays_menu_witness :
  names_resource demo_db "tophat" ∧
  (SessionStarted ∉ [LoadSettled "cap" (Loaded cap_assets); UserLeft bob]) ∧
  (∀ o, LoadSettled "tophat" o ∉
          [LoadSettled "cap" (Loaded cap_assets); UserLeft bob]) ∧
  startup (run (SessionStarted ::
                  [LoadSettled "cap" (Loaded cap_assets); UserLeft bob])
             (constructed (H:=demo_math) demo_db "http://host/public")) =
    AwaitingPreload.
Proof.
  assert (names_resource demo_db "tophat") as Hres by (by exists top_hat).
  assert (SessionStarted ∉ [LoadSettled "cap" (Loaded cap_assets);
                            UserLeft bob]) as Hes.
  { intros Hin. repeat (apply elem_of_cons in Hin as [Hin|Hin];
                        [discriminate Hin|]).
    by apply elem_of_nil in Hin. }
  assert (∀ o, LoadSettled "tophat" o ∉
                 [LoadSettled "cap" (Loaded cap_assets); UserLeft bob]) as Hh.
  { intros o Hin. repeat (apply elem_of_cons in Hin as [Hin|Hin];
                          [discriminate Hin|]).
    by apply elem_of_nil in Hin. }
  split_and!; [exact Hres | exact Hes | exact Hh |].
  exact (proj1 (hung_load_delays_menu (H:=demo_math) demo_db
                  "http://host/public" _ "tophat" Hres Hes Hh)).
Defined.


Lemma prefabs_come_from_loads_witness :
  prefabs (run demo_events
             (constructed (H:=demo_math) demo_db "http://host/public")) !! "cap" =
    Some (List.find prefab_not_null cap_assets) ∧
  names_resource demo_db "cap".
Proof.
  assert (prefabs (run demo_events
                     (constructed (H:=demo_math) demo_db "http://host/public"))
            !! "cap" = Some (List.find prefab_not_null cap_assets)) as Hpf
    by (vm_compute; reflexivity).
  split; [exact Hpf|].
  exact (proj1 (prefabs_come_from_loads (H:=demo_math) demo_db
                  "http://host/public" demo_events "cap" _ Hpf)).
Defined.

Lemma clicks_select_known_hats_witness :
  onClick (run demo_events
             (constructed (H:=demo_math) demo_db "http://host/public")) !! 5 =
    Some "tophat" ∧
  "tophat" ∈ Object_keys demo_db.
Proof.
  assert (onClick (run demo_events
                     (constructed (H:=demo_math) demo_db "http://host/public"))
            !! 5 = Some "tophat") as Hb by (vm_compute; reflexivity).
  split; [exact Hb|].
  exact (proj1 (clicks_select_known_hats (H:=demo_math) demo_db
                  "http://host/public" demo_events 5 "tophat" alice Hb)).
Defined.

Lemma healthy_session_never_throws_witness :
  Forall good_event
    ([SessionStarted; LoadSettled "cap" (Loaded cap_assets)] ++
     [UserLeft bob]) ∧
  (handler (UserLeft bob)
     (run [SessionStarted; LoadSettled "cap" (Loaded cap_assets)]
        (constructed (H:=demo_math) demo_db "http://host/public"))).1 =
    Normal tt.
Proof.
  assert (Forall good_event
            ([SessionStarted; LoadSettled "cap" (Loaded cap_assets)] ++
             [UserLeft bob])) as Hgood.
  { repeat constructor. cbn. discriminate. }
  split; [exact Hgood|].
  exact (healthy_session_never_throws (H:=demo_math) demo_db
           "http://host/public" _ _ Hgood).
Defined.

Lemma unattached_actors_stay_witness :
  let container : Actor (H:=demo_math) :=
    {| actor_id := 0; actor_prefabId := None; actor_like := empty_actor |} in
  container ∈ actors (run demo_events
                        (constructed (H:=demo_math) demo_db
                           "http://host/public")) ∧
  attachment (actor_like container) = None ∧
  container ∈ actors (run [Clicked 3 alice; Clicked 1 alice; UserLeft alice]
                        (run demo_events
                           (constructed (H:=demo_math) demo_db
                              "http://host/public"))).
Proof.
  intros container.
  assert (container ∈ actors (run demo_events
                                (constructed (H:=demo_math) demo_db
                                   "http://host/public"))) as Hin.
  { apply (list_elem_of_lookup_2 _ 0). vm_compute. reflexivity. }
  assert (attachment (actor_like container) = None) as Hun by reflexivity.
  split_and!; [exact Hin | exact Hun |].
  exact (unattached_actors_stay (H:=demo_math) demo_db "http://host/public"
           demo_events _ container Hin Hun).
Defined.

Lemma other_users_keep_hats_witness :
  "bob" ≠ "alice" ∧
  hats_of "bob"
    (wearHat "cap" "alice"
       (run demo_events
          (constructed (H:=demo_math) demo_db "http://host/public"))).2 =
  hats_of "bob"
    (run demo_events
       (constructed (H:=demo_math) demo_db "http://host/public")).
Proof.
  assert ("bob" ≠ "alice") as Hne by discriminate.
  split; [exact Hne|].
  exact (proj1 (other_users_keep_hats (H:=demo_math) demo_db
                  "http://host/public" demo_events "cap" "alice" "bob" Hne)).
Defined.

Lemma reselecting_replaces_instance_witness :
  db_lookup "cap" demo_db = Some cap_hat ∧
  truthy (resourceName cap_hat) = true ∧
  prefabs (run demo_events
             (constructed (H:=demo_math) demo_db "http://host/public")) !! "cap" =
    Some (Some {| asset_id := 41; asset_name := "cap";
                  prefab := Some PrefabDefinition; asset_box := None |}) ∧
  attachedHats
    (wearHat "cap" "alice"
       (wearHat "cap" "alice"
          (run demo_events
             (constructed (H:=demo_math) demo_db "http://host/public"))).2).2
    !! "alice" =
  Some (S (next_actor
             (run demo_events
                (constructed (H:=demo_math) demo_db "http://host/public")))).
Proof.
  assert (db_lookup "cap" demo_db = Some cap_hat) as Hd by reflexivity.
  assert (truthy (resourceName cap_hat) = true) as Hrn by reflexivity.
  assert (prefabs (run demo_events
                     (constructed (H:=demo_math) demo_db "http://host/public"))
            !! "cap" =
          Some (Some {| asset_id := 41; asset_name := "cap";
                        prefab := Some PrefabDefinition;
                        asset_box := None |})) as Hpf
    by (vm_compute; reflexivity).
  split_and!; [exact Hd | exact Hrn | exact Hpf |].
  destruct (reselecting_replaces_instance (H:=demo_math) demo_db
              "http://host/public" demo_events "cap" "alice" cap_hat _
              Hd Hrn Hpf) as (_ & _ & _ & Ht & _).
  exact Ht.
Defined.

Lemma menu_built_once_witness :
  (SessionStarted ∉ [LoadSettled "tophat" (Failed "404");
                     LoadSettled "cap" (Loaded cap_assets);
                     Clicked 3 alice; Clicked 3 bob; UserLeft alice]) ∧
  length (List.filter unattached
            (actors (run (SessionStarted ::
                            [LoadSettled "tophat" (Failed "404");
                             LoadSettled "cap" (Loaded cap_assets);
                             Clicked 3 alice; Clicked 3 bob; UserLeft alice])
                       (constructed (H:=demo_math) demo_db
                          "http://host/public")))) =
    2 * length demo_db + 2.
Proof.
  assert (SessionStarted ∉ [LoadSettled "tophat" (Failed "404");
                            LoadSettled "cap" (Loaded cap_assets);
                            Clicked 3 alice; Clicked 3 bob; UserLeft alice])
    as Hes.
  { intros Hin. repeat (apply elem_of_cons in Hin as [Hin|Hin];
                        [discriminate Hin|]).
    by apply elem_of_nil in Hin. }
  split; [exact Hes|].
  apply (menu_built_once (H:=demo_math) demo_db "http://host/public" _ Hes).
  vm_compute. reflexivity.
Defined.
